(** * create_sankey.py: leaf pruning, reindexing and hover summaries

    A shallow embedding of the script [create_sankey.py] and the proofs of
    its graph-reduction properties.

    The script is straight-line top-level code: every Python loop becomes a
    recursive function that threads the variables the loop updates, every
    subscript that can raise ([d[k]], [l[i]]) runs in a small writer/error
    monad, and [print] and [fig.write_html] are recorded as events ([Stdout], [HtmlFile]).

    Modelling choices:
    - node ids and names are strings; link values are Python integers ([Z]);
    - a JSON object is the record of the keys the script reads, a field
      being [None] when the key is absent (other keys are never read);
    - [set] is [gset nat], the dict [node_id_to_index] is a [gmap], the dict
      [old_to_new_index], which the script iterates in insertion order, is
      an association list in insertion order;
    - the format spec [{value:,.2f}] is a section variable [fmt_money],
      [None] where Python raises [OverflowError] (an integer too large to
      convert to a float); [format_2f] is that format on the integers. *)

From Stdlib Require Import ZArith Ascii String.
From stdpp Require Import base gmap sets list strings pretty.

(** ** Exceptions, events and the monad of the script *)

Inductive key : Type :=
| KStr (s : string)
| KInt (i : nat).

Inductive exn : Type :=
| KeyError (k : key)
| IndexError
| OverflowError.

(** The arguments the script passes to [go.Sankey]. *)
Record figure : Type := Figure {
  node_label : list string;
  node_color : list string;
  node_customdata : list string;
  link_source : list nat;
  link_target : list nat;
  link_value : list Z;
  link_customdata : list string
}.

Inductive event : Type :=
| Stdout (line : string)
| HtmlFile (file : string) (fig : figure).

(** A computation yields the events it emitted, in order, and then either
    the exception that aborted it or its value. *)
Definition M (A : Type) : Type := (list event * (exn + A))%type.

Definition ret {A} (a : A) : M A := ([], inr a).

Definition raise {A} (e : exn) : M A := ([], inl e).

Definition emit (ev : event) : M unit := ([ev], inr tt).

Definition bind {A B} (m : M A) (k : A → M B) : M B :=
  match m with
  | (out, inl e) => (out, inl e)
  | (out, inr a) => let '(out', r) := k a in (out ++ out', r)
  end.

Notation "'let*' x ':=' m 'in' k" := (bind m (fun x => k))
  (at level 10, x name, m at level 100, k at level 200).
Notation "'exec' m 'in' k" := (bind m (fun _ => k))
  (at level 10, m at level 100, k at level 200).

Definition print (line : string) : M unit := emit (Stdout line).

(** [d[k]] on a JSON object whose key [k] may be absent. *)
Definition getitem {A} (k : string) (field : option A) : M A :=
  match field with
  | Some a => ret a
  | None => raise (KeyError (KStr k))
  end.

(** [l[i]] on a list, for a non-negative [i]. *)
Definition getindex {A} (l : list A) (i : nat) : M A :=
  match l !! i with
  | Some a => ret a
  | None => raise IndexError
  end.

(** A list comprehension whose body can raise. *)
Fixpoint comprehension {A B} (body : A → M B) (l : list A) : M (list B) :=
  match l with
  | [] => ret []
  | a :: rest =>
      let* b := body a in
      let* bs := comprehension body rest in
      ret (b :: bs)
  end.

(** ** The input document *)

Record node_obj : Type := NodeObj {
  node_id_key : option string;
  node_name_key : option string
}.

Record link_obj : Type := LinkObj {
  link_source_key : option string;
  link_target_key : option string;
  link_value_key : option Z
}.

Record document : Type := Document {
  nodes_key : option (list node_obj);
  links_key : option (list link_obj)
}.

(** ** Loader (lines 13-36) *)

(** [{node_id: idx for idx, node_id in enumerate(node_ids)}]: a later
    occurrence of an id overwrites the earlier one. *)
Fixpoint index_from (idx : nat) (ids : list string) (d : gmap string nat)
  : gmap string nat :=
  match ids with
  | [] => d
  | node_id :: rest => index_from (S idx) rest (<[node_id := idx]> d)
  end.

Definition warning_line (source_id target_id : string) : string :=
  "Warning: Skipping link " +:+ source_id +:+ " -> " +:+ target_id
  +:+ " (missing node)".

(** The three parallel lists [all_sources], [all_targets], [all_values]. *)
Definition columns : Type := (list nat * list nat * list Z)%type.

(** The loop of lines 22-36. *)
Fixpoint resolve_links (node_id_to_index : gmap string nat)
    (links : list link_obj) (acc : columns) : M columns :=
  match links with
  | [] => ret acc
  | link :: rest =>
      let* source_id := getitem "source" (link_source_key link) in
      let* target_id := getitem "target" (link_target_key link) in
      let* value := getitem "value" (link_value_key link) in
      match node_id_to_index !! source_id, node_id_to_index !! target_id with
      | Some source_idx, Some target_idx =>
          let '(all_sources, all_targets, all_values) := acc in
          resolve_links node_id_to_index rest
            (all_sources ++ [source_idx], all_targets ++ [target_idx],
             all_values ++ [value])
      | _, _ =>
          exec print (warning_line source_id target_id) in
          resolve_links node_id_to_index rest acc
      end
  end.

(** ** Leaf classifier (lines 39-52) *)

Definition range_set (n : nat) : gset nat := list_to_set (seq 0 n).

Definition has_incoming_of (all_targets : list nat) : gset nat :=
  list_to_set all_targets.

Definition has_outgoing_of (all_sources : list nat) : gset nat :=
  list_to_set all_sources.

Definition leftmost_of (n : nat) (all_targets : list nat) : gset nat :=
  range_set n ∖ has_incoming_of all_targets.

Definition rightmost_of (n : nat) (all_sources : list nat) : gset nat :=
  range_set n ∖ has_outgoing_of all_sources.

Definition hidden_of (n : nat) (all_sources all_targets : list nat) : gset nat :=
  leftmost_of n all_targets ∪ rightmost_of n all_sources.

Definition report (hidden_nodes leftmost_nodes rightmost_nodes : gset nat)
  : M unit :=
  exec print ("Removing " +:+ pretty (size hidden_nodes)
         +:+ " leaf nodes from diagram:") in
  exec print ("  Leftmost (sources): " +:+ pretty (size leftmost_nodes)
         +:+ " nodes") in
  print ("  Rightmost (sinks): " +:+ pretty (size rightmost_nodes)
         +:+ " nodes").

(** ** Graph reducer (lines 55-77) *)

(** [old_to_new_index[i] = new_index] for a key that is not yet present:
    the binding goes last in iteration order. *)
Definition dict_set (d : list (nat * nat)) (k v : nat) : list (nat * nat) :=
  d ++ [(k, v)].

Fixpoint dict_get (d : list (nat * nat)) (k : nat) : option nat :=
  match d with
  | [] => None
  | (k', v) :: rest => if decide (k' = k) then Some v else dict_get rest k
  end.

(** [d[k]] on [old_to_new_index]. *)
Definition dict_getitem (d : list (nat * nat)) (k : nat) : M nat :=
  match dict_get d k with
  | Some v => ret v
  | None => raise (KeyError (KInt k))
  end.

(** The variables updated by the loop of lines 60-65. *)
Record reducer_state : Type := ReducerState {
  rs_visible_node_ids : list string;
  rs_visible_node_labels : list string;
  rs_old_to_new_index : list (nat * nat);
  rs_new_index : nat
}.

Fixpoint visible_loop (hidden_nodes : gset nat) (i : nat)
    (pairs : list (string * string)) (st : reducer_state) : reducer_state :=
  match pairs with
  | [] => st
  | (node_id, label) :: rest =>
      if decide (i ∉ hidden_nodes) then
        visible_loop hidden_nodes (S i) rest
          {| rs_visible_node_ids := rs_visible_node_ids st ++ [node_id];
             rs_visible_node_labels := rs_visible_node_labels st ++ [label];
             rs_old_to_new_index :=
               dict_set (rs_old_to_new_index st) i (rs_new_index st);
             rs_new_index := rs_new_index st + 1 |}
      else visible_loop hidden_nodes (S i) rest st
  end.

(** [zip(a, b, c)] *)
Definition zip3 {A B C} (a : list A) (b : list B) (c : list C)
  : list (A * B * C) := zip (zip a b) c.

(** The loop of lines 72-77 over [zip(all_sources, all_targets, all_values)]. *)
Fixpoint filter_loop (hidden_nodes : gset nat)
    (old_to_new_index : list (nat * nat))
    (triples : list (nat * nat * Z)) (acc : columns) : M columns :=
  match triples with
  | [] => ret acc
  | (source_idx, target_idx, value) :: rest =>
      if decide ((source_idx ∉ hidden_nodes) ∧ (target_idx ∉ hidden_nodes)) then
        let '(sources, targets, values) := acc in
        let* new_source := dict_getitem old_to_new_index source_idx in
        let* new_target := dict_getitem old_to_new_index target_idx in
        filter_loop hidden_nodes old_to_new_index rest
          (sources ++ [new_source], targets ++ [new_target],
           values ++ [value])
      else filter_loop hidden_nodes old_to_new_index rest acc
  end.

(** ** Annotator (lines 80-131) *)

(** The palette of lines 134-144. *)
Definition base_colors : list string :=
  [ "#1f77b4"; "#ff7f0e"; "#2ca02c"; "#d62728"; "#9467bd";
    "#8c564b"; "#e377c2"; "#7f7f7f"; "#bcbd22"; "#17becf";
    "#aec7e8"; "#ffbb78"; "#98df8a"; "#ff9896"; "#c5b0d5";
    "#c49c94"; "#f7b6d2"; "#c7c7c7"; "#dbdb8d"; "#9edae5";
    "#393b79"; "#637939"; "#8c6d31"; "#843c39"; "#7b4173";
    "#5254a3"; "#8ca252"; "#bd9e39"; "#ad494a"; "#a55194";
    "#6b6ecf"; "#b5cf6b"; "#e7ba52"; "#d6616b"; "#ce6dbd";
    "#9c9ede"; "#cedb9c"; "#e7cb94"; "#e7969c"; "#de9ed6";
    "#3182bd"; "#e6550d"; "#31a354"; "#756bb1"; "#636363" ].

(** The reverse lookup of lines 93-97: the first item of
    [old_to_new_index.items()] whose value is [node_idx], [None] when the
    loop ends without a [break]. *)
Fixpoint find_original (items : list (nat * nat)) (node_idx : nat)
  : option nat :=
  match items with
  | [] => None
  | (orig_idx, new_idx) :: rest =>
      if decide (new_idx = node_idx) then Some orig_idx
      else find_original rest node_idx
  end.

(** [format(value, ',.2f')] for an integer that a double holds exactly:
    the decimal digits in groups of three, then [.00]. *)
Fixpoint commas (k : nat) (rev_digits : list ascii) : list ascii :=
  match rev_digits with
  | [] => []
  | d :: rest =>
      if decide (k = 3) then "," %char :: d :: commas 1 rest
      else d :: commas (S k) rest
  end.

Definition format_int_2f (value : Z) : string :=
  (if decide (value < 0)%Z then "-" else "")
  +:+ string_of_list_ascii
        (rev (commas 0 (rev (list_ascii_of_string (pretty (Z.abs_N value))))))
  +:+ ".00".

(** The double nearest to a non-negative integer, ties to the even
    mantissa of 53 bits; it is again an integer. *)
Definition round_to_double (magnitude : Z) : Z :=
  let bits := (Z.log2 magnitude + 1)%Z in
  if decide (bits ≤ 53)%Z then magnitude
  else
    let shift := (bits - 53)%Z in
    let mantissa := Z.shiftr magnitude shift in
    let dropped := Z.land magnitude (Z.ones shift) in
    let half := Z.shiftl 1 (shift - 1) in
    let mantissa :=
      if decide (half < dropped ∨ dropped = half ∧ Z.odd mantissa = true)%Z
      then (mantissa + 1)%Z else mantissa in
    Z.shiftl mantissa shift.

(** [float(value)] for a Python integer, [None] when the nearest double
    lies beyond the largest one and Python raises [OverflowError]. *)
Definition float_of_int (value : Z) : option Z :=
  let rounded := round_to_double (Z.abs value) in
  if decide (rounded < 2 ^ 1024)%Z then Some (Z.sgn value * rounded)%Z
  else None.

(** [format(value, ',.2f')] on a Python integer: the integer is converted
    to a float first, and the digits of that float are printed exactly. *)
Definition format_2f (value : Z) : option string :=
  format_int_2f <$> float_of_int value.

(** All variables of the script once it has run to its last line. *)
Record globals : Type := Globals {
  node_ids : list string;
  node_labels : list string;
  node_id_to_index : gmap string nat;
  all_sources : list nat;
  all_targets : list nat;
  all_values : list Z;
  has_incoming : gset nat;
  has_outgoing : gset nat;
  leftmost_nodes : gset nat;
  rightmost_nodes : gset nat;
  hidden_nodes : gset nat;
  visible_node_ids : list string;
  visible_node_labels : list string;
  old_to_new_index : list (nat * nat);
  sources : list nat;
  targets : list nat;
  values : list Z;
  hover_labels : list string;
  node_hover_labels : list string;
  fig : figure
}.

Section Script.

(** [fmt_money value] is [f"{value:,.2f}"], [None] when the conversion of
    [value] to a float raises. *)
Variable fmt_money : Z → option string.

Definition format_money (value : Z) : M string :=
  match fmt_money value with
  | Some amount => ret amount
  | None => raise OverflowError
  end.

(** The f-string of line 84. *)
Definition link_hover_text (source_name target_name : string) (value : Z)
  : M string :=
  let* amount := format_money value in
  ret ("Z: " +:+ source_name +:+ "<br>Do: " +:+ target_name
       +:+ "<br>Kwota: " +:+ amount +:+ " zł").

(** The loop of lines 81-85 over [zip(sources, targets, values)]. *)
Fixpoint link_hover_loop (visible_node_labels : list string)
    (triples : list (nat * nat * Z)) (hover_labels : list string)
  : M (list string) :=
  match triples with
  | [] => ret hover_labels
  | (source_idx, target_idx, value) :: rest =>
      let* source_name := getindex visible_node_labels source_idx in
      let* target_name := getindex visible_node_labels target_idx in
      let* hover_text := link_hover_text source_name target_name value in
      link_hover_loop visible_node_labels rest (hover_labels ++ [hover_text])
  end.

(** The f-string of lines 106 and 116. *)
Definition flow_line (name : string) (value : Z) : M string :=
  let* amount := format_money value in
  ret ("  • " +:+ name +:+ ": " +:+ amount +:+ " zł").

(** The loops of lines 102-107 and 112-117 have one shape: enumerate the
    endpoints on [this] side, and for each position [i] whose endpoint is
    [original_idx] read the endpoint on the [other] side and the value at
    [i].  [original_idx] is [None] or an index, as in the script. *)
Fixpoint flows_loop (node_labels : list string) (other : list nat)
    (all_values : list Z) (original_idx : option nat) (i : nat)
    (this : list nat) (lines : list string) (total : Z)
  : M (list string * Z) :=
  match this with
  | [] => ret (lines, total)
  | this_idx :: rest =>
      if decide (Some this_idx = original_idx) then
        let* other_idx := getindex other i in
        let* other_name := getindex node_labels other_idx in
        let* value := getindex all_values i in
        let* line := flow_line other_name value in
        flows_loop node_labels other all_values original_idx (S i) rest
          (lines ++ [line]) (total + value)%Z
      else
        flows_loop node_labels other all_values original_idx (S i) rest
          lines total
  end.

(** Lines 100-107. *)
Definition incoming_flows (node_labels : list string)
    (all_sources all_targets : list nat) (all_values : list Z)
    (original_idx : option nat) : M (list string * Z) :=
  flows_loop node_labels all_sources all_values original_idx 0 all_targets
    [] 0%Z.

(** Lines 110-117. *)
Definition outgoing_flows (node_labels : list string)
    (all_sources all_targets : list nat) (all_values : list Z)
    (original_idx : option nat) : M (list string * Z) :=
  flows_loop node_labels all_targets all_values original_idx 0 all_sources
    [] 0%Z.

(** The f-string of line 123. *)
Definition node_header (node_name : string) (total : Z) : M string :=
  let* amount := format_money total in
  ret ("<b>" +:+ node_name +:+ ": " +:+ amount +:+ " zł</b>").

(** Lines 123-131, once the header of line 123 is formatted. *)
Definition hover_text (header : string) (incoming outgoing : list string)
  : string :=
  let hover_parts := [header] in
  let hover_parts :=
    match incoming with
    | [] => hover_parts
    | _ :: _ =>
        (hover_parts ++ ["<br><br>Wpływy:"])
        ++ map (λ line, "<br>" +:+ line) incoming
    end in
  let hover_parts :=
    match outgoing with
    | [] => hover_parts
    | _ :: _ =>
        (hover_parts ++ ["<br><br>Wypływy:"])
        ++ map (λ line, "<br>" +:+ line) outgoing
    end in
  String.concat "" hover_parts.

(** One iteration of the loop of lines 89-131. *)
Definition node_hover_text (node_labels : list string)
    (all_sources all_targets : list nat) (all_values : list Z)
    (visible_node_labels : list string) (old_to_new_index : list (nat * nat))
    (node_idx : nat) : M string :=
  let* node_name := getindex visible_node_labels node_idx in
  let original_idx := find_original old_to_new_index node_idx in
  let* inc :=
    incoming_flows node_labels all_sources all_targets all_values
      original_idx in
  let* out :=
    outgoing_flows node_labels all_sources all_targets all_values
      original_idx in
  let total := Z.max (snd inc) (snd out) in
  let* header := node_header node_name total in
  ret (hover_text header (fst inc) (fst out)).

(** The loop of lines 89-131 over [range(len(visible_node_ids))]. *)
Fixpoint node_hover_loop (node_labels : list string)
    (all_sources all_targets : list nat) (all_values : list Z)
    (visible_node_labels : list string) (old_to_new_index : list (nat * nat))
    (indices : list nat) (node_hover_labels : list string)
  : M (list string) :=
  match indices with
  | [] => ret node_hover_labels
  | node_idx :: rest =>
      let* text :=
        node_hover_text node_labels all_sources all_targets all_values
          visible_node_labels old_to_new_index node_idx in
      node_hover_loop node_labels all_sources all_targets all_values
        visible_node_labels old_to_new_index rest
        (node_hover_labels ++ [text])
  end.

(** ** The script *)

Definition output_file : string := "budget_sankey.html".

Definition script (data : document) : M globals :=
  (* lines 13-15 *)
  let* nodes := getitem "nodes" (nodes_key data) in
  let* node_ids :=
    comprehension (λ node, getitem "id" (node_id_key node)) nodes in
  let* nodes := getitem "nodes" (nodes_key data) in
  let* node_labels :=
    comprehension (λ node, getitem "name" (node_name_key node)) nodes in
  let node_id_to_index := index_from 0 node_ids ∅ in
  (* lines 18-36 *)
  let* links := getitem "links" (links_key data) in
  let* resolved := resolve_links node_id_to_index links ([], [], []) in
  let '(all_sources, all_targets, all_values) := resolved in
  (* lines 39-52 *)
  let has_incoming := has_incoming_of all_targets in
  let has_outgoing := has_outgoing_of all_sources in
  let leftmost_nodes := range_set (length node_ids) ∖ has_incoming in
  let rightmost_nodes := range_set (length node_ids) ∖ has_outgoing in
  let hidden_nodes := leftmost_nodes ∪ rightmost_nodes in
  exec report hidden_nodes leftmost_nodes rightmost_nodes in
  (* lines 55-65 *)
  let st :=
    visible_loop hidden_nodes 0 (zip node_ids node_labels)
      (ReducerState [] [] [] 0) in
  let visible_node_ids := rs_visible_node_ids st in
  let visible_node_labels := rs_visible_node_labels st in
  let old_to_new_index := rs_old_to_new_index st in
  (* lines 68-77 *)
  let* filtered :=
    filter_loop hidden_nodes old_to_new_index
      (zip3 all_sources all_targets all_values) ([], [], []) in
  let '(sources, targets, values) := filtered in
  (* lines 80-85 *)
  let* hover_labels :=
    link_hover_loop visible_node_labels (zip3 sources targets values) [] in
  (* lines 88-131 *)
  let* node_hover_labels :=
    node_hover_loop node_labels all_sources all_targets all_values
      visible_node_labels old_to_new_index
      (seq 0 (length visible_node_ids)) [] in
  (* lines 146-165 *)
  let* colors :=
    comprehension
      (λ i, getindex base_colors (i mod length base_colors))
      (seq 0 (length visible_node_labels)) in
  let fig :=
    Figure visible_node_labels colors node_hover_labels
      sources targets values hover_labels in
  (* lines 180-183 *)
  exec emit (HtmlFile output_file fig) in
  exec print ("Sankey diagram saved to " +:+ output_file) in
  exec print
    "Open this file in your web browser to view the interactive diagram." in
  ret (Globals node_ids node_labels node_id_to_index
         all_sources all_targets all_values
         has_incoming has_outgoing leftmost_nodes rightmost_nodes hidden_nodes
         visible_node_ids visible_node_labels old_to_new_index
         sources targets values hover_labels node_hover_labels fig).

End Script.

(** ** Well-formed documents and the scenarios of the specification *)

Definition node_complete (node : node_obj) : bool :=
  match node_id_key node, node_name_key node with
  | Some _, Some _ => true
  | _, _ => false
  end.

Definition link_complete (link : link_obj) : bool :=
  match link_source_key link, link_target_key link, link_value_key link with
  | Some _, Some _, Some _ => true
  | _, _, _ => false
  end.

(** Both collections are present and every object has its required keys. *)
Definition well_formed (data : document) : bool :=
  match nodes_key data, links_key data with
  | Some nodes, Some links =>
      forallb node_complete nodes && forallb link_complete links
  | _, _ => false
  end.

(** [resolve idx link] is the triple that the loader appends for [link],
    [None] when the loader skips it. *)
Definition resolve (idx : gmap string nat) (link : link_obj)
  : option (nat * nat * Z) :=
  match link_source_key link, link_target_key link, link_value_key link with
  | Some s, Some t, Some v =>
      match idx !! s, idx !! t with
      | Some i, Some j => Some (i, j, v)
      | _, _ => None
      end
  | _, _, _ => None
  end.

(** The warning that the loader prints for [link], if any. *)
Definition warning_of (idx : gmap string nat) (link : link_obj)
  : option event :=
  match link_source_key link, link_target_key link, resolve idx link with
  | Some s, Some t, None => Some (Stdout (warning_line s t))
  | _, _, _ => None
  end.

(** The resolved links and the warnings of a list of links. *)
Definition resolved (idx : gmap string nat) (links : list link_obj)
  : list (nat * nat * Z) := omap (resolve idx) links.

Definition warnings (idx : gmap string nat) (links : list link_obj)
  : list event := omap (warning_of idx) links.

Definition is_warning (ev : event) : Prop :=
  ∃ s t, ev = Stdout (warning_line s t).

(** The nodes that the loop of lines 60-65 keeps, each with its original
    index, when it starts at index [i]. *)
Definition kept (hidden : gset nat) (i : nat) (pairs : list (string * string))
  : list (nat * (string * string)) :=
  filter (λ p, p.1 ∉ hidden) (zip (seq i (length pairs)) pairs).

(** A link both of whose endpoints stay visible. *)
Definition both_visible (hidden : gset nat) (tr : nat * nat * Z) : Prop :=
  (tr.1.1 ∉ hidden) ∧ (tr.1.2 ∉ hidden).

#[global] Instance both_visible_dec hidden tr :
  Decision (both_visible hidden tr).
Proof. unfold both_visible. apply _. Defined.

(** [tr'] is [tr] with both endpoints rewritten through [o2n]. *)
Definition reindexed (o2n : list (nat * nat)) (tr tr' : nat * nat * Z)
  : Prop :=
  dict_get o2n tr.1.1 = Some tr'.1.1 ∧ dict_get o2n tr.1.2 = Some tr'.1.2
  ∧ tr'.2 = tr.2.

(** The sum of the values of a list of links. *)
Definition total_value (trs : list (nat * nat * Z)) : Z :=
  foldr (λ tr acc, (tr.2 + acc)%Z) 0%Z trs.

(** The resolved link triples, as the script holds them in three lists. *)
Definition links_of (g : globals) : list (nat * nat * Z) :=
  zip3 (all_sources g) (all_targets g) (all_values g).

(** The resolved links into and out of the node of original index [o]. *)
Definition incoming_of (g : globals) (o : nat) : list (nat * nat * Z) :=
  filter (λ tr, tr.1.2 = o) (links_of g).

Definition outgoing_of (g : globals) (o : nat) : list (nat * nat * Z) :=
  filter (λ tr, tr.1.1 = o) (links_of g).

(** The filtered, reindexed link triples. *)
Definition filtered_of (g : globals) : list (nat * nat * Z) :=
  zip3 (sources g) (targets g) (values g).

(** The source id or the target id of [link] is not a key of [idx]. *)
Definition unknown_endpoint (idx : gmap string nat) (link : link_obj)
  : Prop :=
  link_source_key link ≫= (idx !!.) = None
  ∨ link_target_key link ≫= (idx !!.) = None.

#[global] Instance unknown_endpoint_dec idx link :
  Decision (unknown_endpoint idx link).
Proof. unfold unknown_endpoint. apply _. Defined.

(** The three columns of a list of triples. *)
Definition append_columns (acc : columns) (trs : list (nat * nat * Z))
  : columns :=
  (acc.1.1 ++ trs.*1.*1, acc.1.2 ++ trs.*1.*2, acc.2 ++ trs.*2).

Definition nd (id name : string) : node_obj := NodeObj (Some id) (Some name).

Definition lk (s t : string) (v : Z) : link_obj :=
  LinkObj (Some s) (Some t) (Some v).

(** The scenarios of the specification. *)
Definition scenario_A : document :=
  Document (Some [nd "a" "A"; nd "b" "B"; nd "c" "C"])
           (Some [lk "a" "b" 10; lk "b" "c" 5]).

Definition scenario_B : document :=
  Document (Some [nd "a" "A"; nd "b" "B"; nd "c" "C"; nd "d" "D"])
           (Some [lk "a" "b" 10; lk "b" "c" 7; lk "b" "d" 3]).

Definition scenario_C : document :=
  Document (Some [nd "a" "A"; nd "b" "B"; nd "c" "C"; nd "d" "D"])
           (Some [lk "a" "b" 10; lk "b" "c" 7; lk "c" "d" 7]).

(** Scenario C with one more link, whose source is unknown. *)
Definition scenario_D : document :=
  Document (Some [nd "a" "A"; nd "b" "B"; nd "c" "C"; nd "d" "D"])
           (Some [lk "a" "b" 10; lk "b" "c" 7; lk "x" "c" 7; lk "c" "d" 7]).

Definition scenario_E : document :=
  Document (Some [nd "a" "A"; nd "b" "B"]) (Some [lk "a" "b" 5]).

(** A malformed document: the second link has no value, the first one has
    an unknown source. *)
Definition scenario_malformed : document :=
  Document (Some [nd "a" "A"; nd "b" "B"])
           (Some [lk "x" "b" 1; LinkObj (Some "a") (Some "b") None]).

(** Scenario C with a value on the drawn link that no float can hold. *)
Definition scenario_overflow : document :=
  Document (Some [nd "a" "A"; nd "b" "B"; nd "c" "C"; nd "d" "D"])
           (Some [lk "a" "b" 10; lk "x" "c" 7; lk "b" "c" (10 ^ 309);
                  lk "c" "d" 7]).

(** A document with a repeated id: the first node shares the id of the
    third one, and the other three nodes lie on a cycle. *)
Definition scenario_duplicate : document :=
  Document (Some [nd "a" "A1"; nd "b" "B"; nd "a" "A2"; nd "c" "C"])
           (Some [lk "a" "b" 4; lk "b" "c" 3; lk "c" "a" 2]).

(** A document none of whose links is resolved. *)
Definition scenario_unresolved : document :=
  Document (Some [nd "a" "A"; nd "b" "B"]) (Some [lk "a" "x" 1]).

(** A document with a link from a node to itself. *)
Definition scenario_self_loop : document :=
  Document (Some [nd "a" "A"; nd "b" "B"])
           (Some [lk "a" "b" 1; lk "b" "b" 5]).

(** A ring of [n] nodes, each linked to the next one. *)
Definition scenario_ring (n : nat) : document :=
  Document
    (Some ((λ i, nd ("n" +:+ pretty i) ("N" +:+ pretty i)) <$> seq 0 n))
    (Some ((λ i, lk ("n" +:+ pretty i) ("n" +:+ pretty ((i + 1) mod n)) 1)
             <$> seq 0 n)).

(** The three lines that [report] prints. *)
Definition report_events (hidden leftmost rightmost : gset nat)
  : list event :=
  [ Stdout ("Removing " +:+ pretty (size hidden) +:+ " leaf nodes from diagram:");
    Stdout ("  Leftmost (sources): " +:+ pretty (size leftmost) +:+ " nodes");
    Stdout ("  Rightmost (sinks): " +:+ pretty (size rightmost) +:+ " nodes") ].

(** The events of the last three lines of the script. *)
Definition final_events (fig : figure) : list event :=
  [ HtmlFile output_file fig;
    Stdout ("Sankey diagram saved to " +:+ output_file);
    Stdout "Open this file in your web browser to view the interactive diagram." ].

Section Relations.

Variable fmt_money : Z → option string.

(** [h] is the hover line of the filtered link [tr]. *)
Definition link_hover_rel (labels : list string) (tr : nat * nat * Z)
    (h : string) : Prop :=
  ∃ a b amount,
    labels !! tr.1.1 = Some a ∧ labels !! tr.1.2 = Some b
    ∧ fmt_money tr.2 = Some amount
    ∧ h = "Z: " +:+ a +:+ "<br>Do: " +:+ b +:+ "<br>Kwota: " +:+ amount
          +:+ " zł".

(** [e] is the itemised line and the value of the flow [tr], whose other
    endpoint is [oth tr]. *)
Definition flow_rel (labels : list string) (oth : nat * nat * Z → nat)
    (tr : nat * nat * Z) (e : string * Z) : Prop :=
  ∃ name amount,
    labels !! oth tr = Some name ∧ fmt_money tr.2 = Some amount
    ∧ e = ("  • " +:+ name +:+ ": " +:+ amount +:+ " zł", tr.2).

(** What is known of the output [out] and the final variables [g] of a run
    of the script that reached its last line, on the document whose
    collections are [nodes] and [links]. *)
Record run_facts (data : document) (nodes : list node_obj)
    (links : list link_obj) (out : list event) (g : globals) : Prop :=
  RunFacts {
    rf_nodes : nodes_key data = Some nodes;
    rf_links : links_key data = Some links;
    rf_ids : mapM node_id_key nodes = Some (node_ids g);
    rf_labels : mapM node_name_key nodes = Some (node_labels g);
    rf_complete : forallb link_complete links = true;
    rf_index : node_id_to_index g = index_from 0 (node_ids g) ∅;
    rf_sources :
      all_sources g = (resolved (node_id_to_index g) links).*1.*1;
    rf_targets :
      all_targets g = (resolved (node_id_to_index g) links).*1.*2;
    rf_values : all_values g = (resolved (node_id_to_index g) links).*2;
    rf_has_incoming : has_incoming g = list_to_set (all_targets g);
    rf_has_outgoing : has_outgoing g = list_to_set (all_sources g);
    rf_leftmost :
      leftmost_nodes g = range_set (length (node_ids g)) ∖ has_incoming g;
    rf_rightmost :
      rightmost_nodes g = range_set (length (node_ids g)) ∖ has_outgoing g;
    rf_hidden : hidden_nodes g = leftmost_nodes g ∪ rightmost_nodes g;
    rf_visible_ids :
      visible_node_ids g =
      (kept (hidden_nodes g) 0 (zip (node_ids g) (node_labels g))).*2.*1;
    rf_visible_labels :
      visible_node_labels g =
      (kept (hidden_nodes g) 0 (zip (node_ids g) (node_labels g))).*2.*2;
    rf_old_to_new :
      old_to_new_index g =
      zip (kept (hidden_nodes g) 0 (zip (node_ids g) (node_labels g))).*1
          (seq 0 (length
             (kept (hidden_nodes g) 0 (zip (node_ids g) (node_labels g)))));
    rf_filtered :
      ∃ ts,
        Forall2 (reindexed (old_to_new_index g))
          (filter (both_visible (hidden_nodes g))
                  (resolved (node_id_to_index g) links)) ts
        ∧ sources g = ts.*1.*1 ∧ targets g = ts.*1.*2 ∧ values g = ts.*2;
    rf_hover :
      Forall2 (link_hover_rel (visible_node_labels g))
        (zip3 (sources g) (targets g) (values g)) (hover_labels g);
    rf_node_hover :
      Forall2 (λ v text,
                 node_hover_text fmt_money (node_labels g) (all_sources g)
                   (all_targets g) (all_values g) (visible_node_labels g)
                   (old_to_new_index g) v = ([], inr text))
        (seq 0 (length (visible_node_ids g))) (node_hover_labels g);
    rf_fig :
      ∃ colors,
        length colors = length (visible_node_labels g)
        ∧ fig g = Figure (visible_node_labels g) colors (node_hover_labels g)
                    (sources g) (targets g) (values g) (hover_labels g);
    rf_out :
      out = warnings (node_id_to_index g) links
            ++ report_events (hidden_nodes g) (leftmost_nodes g)
                 (rightmost_nodes g)
            ++ final_events (fig g)
  }.

End Relations.

(** The keys whose absence makes the input malformed. *)
Definition required_keys : list string :=
  ["nodes"; "links"; "id"; "name"; "source"; "target"; "value"].

(** * Proofs *)

(** ** The monad *)

Lemma bind_ret_l {A B} (a : A) (k : A → M B) : bind (ret a) k = k a.
Proof. unfold bind, ret. by destruct (k a). Qed.

Lemma bind_val {A B} (a : A) (k : A → M B) : bind ([], inr a) k = k a.
Proof. apply bind_ret_l. Qed.

Lemma bind_inl {A B} (m : M A) (k : A → M B) out e :
  m = (out, inl e) → bind m k = (out, inl e).
Proof. by intros ->. Qed.

Lemma bind_pure {A B} (m : M A) (k : A → M B) a :
  m = ([], inr a) → bind m k = k a.
Proof. intros ->. apply bind_ret_l. Qed.

Lemma bind_inr_inv {A B} (m : M A) (k : A → M B) out b :
  bind m k = (out, inr b) →
  ∃ out1 a out2, m = (out1, inr a) ∧ k a = (out2, inr b) ∧ out = out1 ++ out2.
Proof.
  unfold bind. destruct m as [out1 [e|a]]; [done|].
  destruct (k a) as [out2 r] eqn:Hk. intros [= <- ->]. eauto 6.
Qed.

Lemma getitem_Some {A} k (a : A) : getitem k (Some a) = ret a.
Proof. done. Qed.

Lemma getindex_Some {A} (l : list A) i a :
  l !! i = Some a → getindex l i = ret a.
Proof. unfold getindex. by intros ->. Qed.

(** ** Loader *)

Lemma comprehension_getitem {A B} (k : string) (f : A → option B) l :
  comprehension (λ a, getitem k (f a)) l =
  match mapM f l with
  | Some bs => ([], inr bs)
  | None => ([], inl (KeyError (KStr k)))
  end.
Proof.
  induction l as [|a l IH]; [done|]. cbn [comprehension mapM].
  destruct (f a) as [b|]; [|done]. rewrite getitem_Some, bind_ret_l, IH.
  simpl. by destruct (mapM f l).
Qed.

Lemma mapM_forallb {A B} (f : A → option B) (c : A → bool) l :
  (∀ a, c a = true ↔ is_Some (f a)) →
  forallb c l = true ↔ is_Some (mapM f l).
Proof.
  intros Hc. rewrite mapM_is_Some, forallb_forall, Forall_forall.
  setoid_rewrite <-list_elem_of_In. by setoid_rewrite Hc.
Qed.

Lemma index_from_lookup idx ids d id i :
  index_from idx ids d !! id = Some i →
  d !! id = Some i ∨ idx ≤ i < idx + length ids.
Proof.
  revert idx d. induction ids as [|x ids IH]; intros idx d; simpl; [auto|].
  intros [H|H]%IH; [|right; lia].
  rewrite lookup_insert in H. case_decide; [|auto].
  injection H as <-. right; lia.
Qed.


Lemma append_columns_snoc a b c i j v trs :
  append_columns (a ++ [i], b ++ [j], c ++ [v]) trs =
  append_columns (a, b, c) ((i, j, v) :: trs).
Proof. unfold append_columns. simpl. by rewrite <-!app_assoc. Qed.

Lemma append_columns_nil acc : append_columns acc [] = acc.
Proof. destruct acc as [[a b] c]. unfold append_columns. simpl.
  by rewrite !app_nil_r. Qed.

Lemma resolve_links_complete idx links acc :
  forallb link_complete links = true →
  resolve_links idx links acc =
  (warnings idx links, inr (append_columns acc (resolved idx links))).
Proof.
  revert acc. induction links as [|link links IH]; intros acc Hc.
  - simpl. by rewrite append_columns_nil.
  - simpl in Hc. apply andb_prop in Hc as [Hl Hc].
    unfold link_complete in Hl. unfold warnings, resolved.
    cbn [resolve_links omap list_omap]. unfold resolve, warning_of, resolve.
    destruct (link_source_key link) as [s|]; [|done].
    destruct (link_target_key link) as [t|]; [|done].
    destruct (link_value_key link) as [v|]; [|done].
    rewrite !getitem_Some, !bind_ret_l.
    destruct (idx !! s) as [i|] eqn:Hs; [destruct (idx !! t) as [j|] eqn:Ht|].
    + destruct acc as [[a b] c]. rewrite IH by done.
      by rewrite append_columns_snoc.
    + unfold print, emit, bind at 1. by rewrite IH.
    + unfold print, emit, bind at 1. by rewrite IH.
Qed.

Lemma resolve_links_incomplete idx links acc :
  forallb link_complete links = false →
  ∃ out k, resolve_links idx links acc = (out, inl (KeyError (KStr k)))
    ∧ k ∈ ["source"; "target"; "value"] ∧ Forall is_warning out.
Proof.
  revert acc. induction links as [|link links IH]; intros acc Hc; [done|].
  simpl in Hc. cbn [resolve_links].
  destruct (link_source_key link) as [s|] eqn:Es; cycle 1.
  { exists [], "source". split_and!; [done|set_solver|done]. }
  destruct (link_target_key link) as [t|] eqn:Et; cycle 1.
  { exists [], "target". split_and!; [done|set_solver|done]. }
  destruct (link_value_key link) as [v|] eqn:Ev; cycle 1.
  { exists [], "value". split_and!; [done|set_solver|done]. }
  unfold link_complete in Hc. rewrite Es, Et, Ev in Hc. simpl in Hc.
  rewrite !getitem_Some, !bind_ret_l.
  destruct (idx !! s) as [i|]; [destruct (idx !! t) as [j|]|].
  - destruct acc as [[a b] c]. by apply IH.
  - destruct (IH acc Hc) as (out & k & -> & ? & ?).
    exists (Stdout (warning_line s t) :: out), k. split_and!; [done..|].
    constructor; [by exists s, t|done].
  - destruct (IH acc Hc) as (out & k & -> & ? & ?).
    exists (Stdout (warning_line s t) :: out), k. split_and!; [done..|].
    constructor; [by exists s, t|done].
Qed.

Lemma warnings_are_warnings idx links : Forall is_warning (warnings idx links).
Proof.
  unfold warnings. induction links as [|link links IH]; [done|].
  cbn [omap list_omap]. unfold warning_of at 1.
  destruct (link_source_key link) as [s|]; [|done].
  destruct (link_target_key link) as [t|]; [|done].
  destruct (resolve idx link); [done|].
  constructor; [by exists s, t|done].
Qed.

Lemma resolved_bound ids links i j v :
  (i, j, v) ∈ resolved (index_from 0 ids ∅) links →
  i < length ids ∧ j < length ids.
Proof.
  unfold resolved. rewrite list_elem_of_omap. intros (link & _ & Hr).
  unfold resolve in Hr.
  destruct (link_source_key link) as [s|]; [|done].
  destruct (link_target_key link) as [t|]; [|done].
  destruct (link_value_key link) as [v'|]; [|done].
  destruct (index_from 0 ids ∅ !! s) as [i'|] eqn:Hs; [|done].
  destruct (index_from 0 ids ∅ !! t) as [j'|] eqn:Ht; [|done].
  injection Hr as -> -> ->.
  apply index_from_lookup in Hs as [Hs|Hs]; [by rewrite lookup_empty in Hs|].
  apply index_from_lookup in Ht as [Ht|Ht]; [by rewrite lookup_empty in Ht|].
  lia.
Qed.

(** ** Graph reducer *)

Lemma visible_loop_spec hidden pairs i st :
  visible_loop hidden i pairs st =
  {| rs_visible_node_ids :=
       rs_visible_node_ids st ++ (kept hidden i pairs).*2.*1;
     rs_visible_node_labels :=
       rs_visible_node_labels st ++ (kept hidden i pairs).*2.*2;
     rs_old_to_new_index :=
       rs_old_to_new_index st
       ++ zip (kept hidden i pairs).*1
              (seq (rs_new_index st) (length (kept hidden i pairs)));
     rs_new_index := rs_new_index st + length (kept hidden i pairs) |}.
Proof.
  revert i st. induction pairs as [|[node_id label] pairs IH]; intros i st.
  - destruct st. unfold kept. simpl. by rewrite !app_nil_r, Nat.add_0_r.
  - cbn [visible_loop]. unfold kept. cbn [length seq zip zip_with].
    rewrite filter_cons. cbn [fst].
    destruct (decide (i ∉ hidden)) as [Hi|Hi].
    + rewrite IH. unfold kept, dict_set. cbn [rs_visible_node_ids
        rs_visible_node_labels rs_old_to_new_index rs_new_index].
      cbn [fmap list_fmap fst snd length seq zip zip_with].
      rewrite <-!app_assoc. cbn [app]. rewrite Nat.add_1_r.
      f_equal. lia.
    + by rewrite IH.
Qed.

Lemma kept_fst hidden i pairs :
  (kept hidden i pairs).*1 = filter (λ o, o ∉ hidden) (seq i (length pairs)).
Proof.
  unfold kept. revert i.
  induction pairs as [|p pairs IH]; intros i; [done|].
  cbn [length seq zip zip_with]. rewrite !filter_cons. cbn [fst].
  destruct (decide (i ∉ hidden)); cbn [fmap list_fmap fst]; by rewrite IH.
Qed.

Lemma kept_lookup hidden i pairs v o p :
  kept hidden i pairs !! v = Some (o, p) →
  i ≤ o ∧ (o ∉ hidden) ∧ pairs !! (o - i) = Some p.
Proof.
  intros H%list_elem_of_lookup_2. unfold kept in H.
  apply list_elem_of_filter in H as [Ho H]. simpl in Ho.
  apply list_elem_of_lookup_1 in H as [j H].
  apply lookup_zip_with_Some in H as (x & y & [= -> ->] & Hx & Hy).
  apply lookup_seq in Hx as [-> _]. split_and!; [lia|done|].
  by replace (i + j - i) with j by lia.
Qed.

Lemma filter_seq_lookup_lt (P : nat → Prop) `{!∀ x, Decision (P x)}
    i n a b x y :
  filter P (seq i n) !! a = Some x → filter P (seq i n) !! b = Some y →
  a < b → x < y.
Proof.
  revert i a b. induction n as [|n IH]; intros i a b; [done|].
  cbn [seq]. rewrite filter_cons. destruct (decide (P i)); [|by apply IH].
  destruct a as [|a], b as [|b]; try lia.
  - simpl. intros [= <-] Hy%list_elem_of_lookup_2 _.
    apply list_elem_of_filter in Hy as [_ Hy]. apply elem_of_seq in Hy. lia.
  - simpl. intros ???. eapply IH; [done..|lia].
Qed.

Lemma dict_get_zip_seq K s o v :
  NoDup K →
  dict_get (zip K (seq s (length K))) o = Some v ↔
  s ≤ v ∧ K !! (v - s) = Some o.
Proof.
  intros HK. revert s. induction HK as [|k K Hk HK IH]; intros s.
  { simpl. split; [done|]. by intros [_ ?]. }
  cbn [length seq zip zip_with dict_get].
  destruct (decide (k = o)) as [->|Hne].
  - split.
    + intros [= <-]. by rewrite Nat.sub_diag.
    + intros [Hle Hl]. destruct (decide (v = s)) as [->|]; [done|].
      replace (v - s) with (S (v - S s)) in Hl by lia. simpl in Hl.
      by apply list_elem_of_lookup_2 in Hl.
  - rewrite IH. split.
    + intros [Hle Hl]. split; [lia|].
      by replace (v - s) with (S (v - S s)) by lia.
    + intros [Hle Hl]. destruct (decide (v = s)) as [->|].
      { rewrite Nat.sub_diag in Hl. by injection Hl. }
      split; [lia|]. by replace (v - s) with (S (v - S s)) in Hl by lia.
Qed.

Lemma find_original_zip_seq K s v :
  find_original (zip K (seq s (length K))) v =
  if decide (s ≤ v) then K !! (v - s) else None.
Proof.
  revert s. induction K as [|k K IH]; intros s.
  { simpl. by case_decide. }
  cbn [length seq zip zip_with find_original].
  destruct (decide (s = v)) as [->|Hne].
  - rewrite decide_True by lia. by rewrite Nat.sub_diag.
  - rewrite IH. destruct (decide (s ≤ v)).
    + rewrite decide_True by lia.
      by replace (v - s) with (S (v - S s)) by lia.
    + by rewrite decide_False by lia.
Qed.

Lemma Forall2_exists_r {A B} (R : A → B → Prop) l :
  (∀ x, x ∈ l → ∃ y, R x y) → ∃ k, Forall2 R l k.
Proof.
  induction l as [|x l IH]; intros H; [by exists []|].
  destruct (H x) as [y Hy]; [left|].
  destruct IH as [k Hk]; [intros; apply H; by right|].
  exists (y :: k). by constructor.
Qed.

Lemma filter_loop_spec hidden o2n triples acc ts :
  Forall2 (reindexed o2n) (filter (both_visible hidden) triples) ts →
  filter_loop hidden o2n triples acc = ([], inr (append_columns acc ts)).
Proof.
  revert acc ts.
  induction triples as [|[[s t] v] triples IH]; intros acc ts Hts.
  - apply Forall2_nil_inv_l in Hts as ->. simpl. by rewrite append_columns_nil.
  - cbn [filter_loop]. rewrite filter_cons in Hts.
    destruct (decide (both_visible hidden (s, t, v))) as [Hv|Hv].
    + rewrite decide_True by exact Hv.
      apply Forall2_cons_inv_l in Hts as ([[s' t'] v'] & ts' & Hr & Hts & ->).
      destruct Hr as (Hs & Ht & Hval). cbn [fst snd] in Hs, Ht, Hval. subst v'.
      destruct acc as [[a b] c]. unfold dict_getitem. rewrite Hs, Ht.
      rewrite !bind_ret_l, (IH _ ts') by done.
      by rewrite append_columns_snoc.
    + rewrite decide_False by exact Hv. by apply IH.
Qed.

Lemma zip3_columns (trs : list (nat * nat * Z)) :
  zip3 trs.*1.*1 trs.*1.*2 trs.*2 = trs.
Proof.
  unfold zip3. induction trs as [|[[s t] v] trs IH]; [done|].
  cbn [fmap list_fmap fst snd zip zip_with]. by rewrite IH.
Qed.

Section Correctness.

Variable fmt_money : Z → option string.

Lemma format_money_Some value amount :
  fmt_money value = Some amount → format_money fmt_money value = ret amount.
Proof. unfold format_money. by intros ->. Qed.

Lemma format_money_None value :
  fmt_money value = None →
  format_money fmt_money value = raise OverflowError.
Proof. unfold format_money. by intros ->. Qed.

Lemma link_hover_loop_spec labels triples acc hs :
  Forall2 (link_hover_rel fmt_money labels) triples hs →
  link_hover_loop fmt_money labels triples acc = ([], inr (acc ++ hs)).
Proof.
  intros H. revert acc.
  induction H
    as [|[[s t] v] h triples hs (a & b & amount & Ha & Hb & Hv & ->) _ IH];
    intros acc.
  - simpl. by rewrite app_nil_r.
  - cbn [link_hover_loop]. cbn [fst snd] in Ha, Hb, Hv.
    rewrite (getindex_Some _ _ _ Ha), (getindex_Some _ _ _ Hb), !bind_ret_l.
    unfold link_hover_text.
    rewrite (format_money_Some _ _ Hv), !bind_ret_l.
    rewrite IH. by rewrite <-app_assoc.
Qed.

(** The hover loop on links whose endpoints are in range either formats
    every value, or stops at the first value that cannot be formatted. *)
Lemma link_hover_loop_cases labels triples acc :
  Forall (λ tr, is_Some (labels !! tr.1.1) ∧ is_Some (labels !! tr.1.2))
    triples →
  (∃ hs, Forall2 (link_hover_rel fmt_money labels) triples hs)
  ∨ (link_hover_loop fmt_money labels triples acc = ([], inl OverflowError)
     ∧ triples ≠ []).
Proof.
  intros H. revert acc.
  induction H as [|[[s t] v] triples [[a Ha] [b Hb]] _ IH]; intros acc.
  { left. exists []. constructor. }
  cbn [fst snd] in Ha, Hb.
  assert (Hstep : ∀ k : string → M (list string),
    link_hover_loop fmt_money labels ((s, t, v) :: triples) acc
    = bind (link_hover_text fmt_money a b v)
        (λ h, link_hover_loop fmt_money labels triples (acc ++ [h]))).
  { intros _. cbn [link_hover_loop].
    by rewrite (getindex_Some _ _ _ Ha), (getindex_Some _ _ _ Hb),
      !bind_ret_l. }
  specialize (Hstep (λ _, ret [])). unfold link_hover_text in Hstep.
  destruct (fmt_money v) as [amount|] eqn:Hv.
  - rewrite (format_money_Some _ _ Hv), !bind_ret_l in Hstep.
    destruct (IH (acc ++ ["Z: " +:+ a +:+ "<br>Do: " +:+ b +:+ "<br>Kwota: "
                          +:+ amount +:+ " zł"])) as [[hs Hhs]|[Hfail _]].
    + left. eexists (_ :: hs). constructor; [|exact Hhs].
      exists a, b, amount. by split_and!.
    + right. split; [|done]. by rewrite Hstep.
  - right. split; [|done]. rewrite Hstep.
    by rewrite (format_money_None _ Hv).
Qed.

Lemma flows_loop_step labels (sel oth : nat * nat * Z → nat) o pre tr trs
    lines total name :
  sel tr = o → labels !! oth tr = Some name →
  flows_loop fmt_money labels (oth <$> (pre ++ tr :: trs))
    (pre ++ tr :: trs).*2 (Some o) (length pre) (sel <$> tr :: trs)
    lines total
  = bind (flow_line fmt_money name tr.2)
      (λ line,
         flows_loop fmt_money labels (oth <$> ((pre ++ [tr]) ++ trs))
           ((pre ++ [tr]) ++ trs).*2 (Some o) (length (pre ++ [tr]))
           (sel <$> trs) (lines ++ [line]) (total + tr.2)%Z).
Proof.
  intros Ho Hn. cbn [fmap list_fmap flows_loop].
  rewrite decide_True by congruence.
  assert ((oth <$> (pre ++ tr :: trs)) !! length pre = Some (oth tr)) as Hoth.
  { rewrite list_lookup_fmap, list_lookup_middle; done. }
  assert ((pre ++ tr :: trs).*2 !! length pre = Some tr.2) as Hval.
  { rewrite list_lookup_fmap, list_lookup_middle; done. }
  rewrite (getindex_Some _ _ _ Hoth), bind_ret_l.
  rewrite (getindex_Some _ _ _ Hn), bind_ret_l.
  rewrite (getindex_Some _ _ _ Hval), bind_ret_l.
  rewrite <-app_assoc, length_app. cbn [app length].
  by rewrite Nat.add_1_r.
Qed.

Lemma flows_loop_skip labels (sel oth : nat * nat * Z → nat) o pre tr trs
    lines total :
  sel tr ≠ o →
  flows_loop fmt_money labels (oth <$> (pre ++ tr :: trs))
    (pre ++ tr :: trs).*2 (Some o) (length pre) (sel <$> tr :: trs)
    lines total
  = flows_loop fmt_money labels (oth <$> ((pre ++ [tr]) ++ trs))
      ((pre ++ [tr]) ++ trs).*2 (Some o) (length (pre ++ [tr]))
      (sel <$> trs) lines total.
Proof.
  intros Ho. cbn [fmap list_fmap flows_loop].
  rewrite decide_False by congruence.
  rewrite <-app_assoc, length_app. cbn [app length].
  by rewrite Nat.add_1_r.
Qed.

Lemma flows_loop_spec labels (sel oth : nat * nat * Z → nat) o
    pre trs lines total es :
  Forall2 (flow_rel fmt_money labels oth) (filter (λ tr, sel tr = o) trs) es →
  flows_loop fmt_money labels (oth <$> (pre ++ trs)) (pre ++ trs).*2
    (Some o) (length pre) (sel <$> trs) lines total =
  ([], inr (lines ++ es.*1, (total + foldr Z.add 0 es.*2)%Z)).
Proof.
  revert pre lines total es.
  induction trs as [|tr trs IH]; intros pre lines total es Hes.
  - apply Forall2_nil_inv_l in Hes as ->. simpl.
    by rewrite app_nil_r, Z.add_0_r.
  - rewrite filter_cons in Hes.
    destruct (decide (sel tr = o)) as [Ho|Ho].
    + apply Forall2_cons_inv_l in Hes
        as (e & es' & (name & amount & Hn & Hv & ->) & Hes & ->).
      rewrite (flows_loop_step _ _ _ _ _ _ _ _ _ _ Ho Hn).
      unfold flow_line. rewrite (format_money_Some _ _ Hv), !bind_ret_l.
      rewrite (IH _ _ _ es') by done. cbn [fmap list_fmap fst snd foldr].
      rewrite <-app_assoc. do 3 f_equal. lia.
    + rewrite (flows_loop_skip _ _ _ _ _ _ _ _ _ Ho). by apply IH.
Qed.

(** A flow loop whose other endpoints are in range either formats every
    selected value, or stops at the first one that cannot be formatted. *)
Lemma flows_loop_cases labels (sel oth : nat * nat * Z → nat) o
    pre trs lines total :
  (∀ tr, tr ∈ trs → is_Some (labels !! oth tr)) →
  (∃ es, Forall2 (flow_rel fmt_money labels oth)
           (filter (λ tr, sel tr = o) trs) es)
  ∨ flows_loop fmt_money labels (oth <$> (pre ++ trs)) (pre ++ trs).*2
      (Some o) (length pre) (sel <$> trs) lines total
    = ([], inl OverflowError).
Proof.
  revert pre lines total.
  induction trs as [|tr trs IH]; intros pre lines total Hb.
  { left. exists []. constructor. }
  assert (Hb' : ∀ tr', tr' ∈ trs → is_Some (labels !! oth tr')).
  { intros tr' Hin. apply Hb. by right. }
  rewrite filter_cons.
  destruct (decide (sel tr = o)) as [Ho|Ho].
  - destruct (Hb tr) as [name Hn]; [left|].
    rewrite (flows_loop_step _ _ _ _ _ _ _ _ _ _ Ho Hn). unfold flow_line.
    destruct (fmt_money tr.2) as [amount|] eqn:Hv.
    + rewrite (format_money_Some _ _ Hv), !bind_ret_l.
      destruct (IH (pre ++ [tr])
                  (lines ++ ["  • " +:+ name +:+ ": " +:+ amount +:+ " zł"])
                  (total + tr.2)%Z Hb') as [[es Hes]|Hfail].
      * left. eexists (_ :: es). constructor; [|exact Hes].
        exists name, amount. by split_and!.
      * by right.
    + right. by rewrite (format_money_None _ Hv).
  - rewrite (flows_loop_skip _ _ _ _ _ _ _ _ _ Ho). by apply IH.
Qed.

Lemma flow_rel_total labels oth trs es :
  Forall2 (flow_rel fmt_money labels oth) trs es →
  foldr Z.add 0%Z es.*2 = total_value trs.
Proof.
  unfold total_value.
  induction 1 as [|tr e trs es (name & amount & _ & _ & ->) _ IH]; [done|].
  cbn [fmap list_fmap foldr snd]. by rewrite IH.
Qed.

Lemma node_hover_text_spec labels trs vis_labels o2n v name o es_in es_out
    amount :
  vis_labels !! v = Some name →
  find_original o2n v = Some o →
  Forall2 (flow_rel fmt_money labels (λ tr, tr.1.1))
    (filter (λ tr, tr.1.2 = o) trs) es_in →
  Forall2 (flow_rel fmt_money labels (λ tr, tr.1.2))
    (filter (λ tr, tr.1.1 = o) trs) es_out →
  fmt_money (Z.max (total_value (filter (λ tr, tr.1.2 = o) trs))
                   (total_value (filter (λ tr, tr.1.1 = o) trs)))
  = Some amount →
  node_hover_text fmt_money labels trs.*1.*1 trs.*1.*2 trs.*2
    vis_labels o2n v =
  ([], inr (hover_text ("<b>" +:+ name +:+ ": " +:+ amount +:+ " zł</b>")
              es_in.*1 es_out.*1)).
Proof.
  intros Hname Ho Hin Hout Hamount. unfold node_hover_text.
  rewrite (getindex_Some _ _ _ Hname), bind_ret_l, Ho.
  unfold incoming_flows, outgoing_flows.
  pose proof (flows_loop_spec labels (λ tr, tr.1.2) (λ tr, tr.1.1) o
                [] trs [] 0%Z es_in Hin) as H1.
  pose proof (flows_loop_spec labels (λ tr, tr.1.1) (λ tr, tr.1.2) o
                [] trs [] 0%Z es_out Hout) as H2.
  cbn [app length] in H1, H2.
  rewrite <-!list_fmap_compose. unfold compose.
  rewrite H1, bind_val, H2, bind_val. cbn [fst snd].
  rewrite !Z.add_0_l.
  rewrite (flow_rel_total _ _ _ _ Hin), (flow_rel_total _ _ _ _ Hout).
  unfold node_header. by rewrite (format_money_Some _ _ Hamount), !bind_ret_l.
Qed.

(** One iteration of the node loop either formats every flow of the node
    and its total, or ends with [OverflowError]. *)
Lemma node_hover_text_cases labels trs vis_labels o2n v name o :
  vis_labels !! v = Some name →
  find_original o2n v = Some o →
  (∀ tr, tr ∈ trs →
         is_Some (labels !! tr.1.1) ∧ is_Some (labels !! tr.1.2)) →
  (∃ es_in es_out amount,
     Forall2 (flow_rel fmt_money labels (λ tr, tr.1.1))
       (filter (λ tr, tr.1.2 = o) trs) es_in
     ∧ Forall2 (flow_rel fmt_money labels (λ tr, tr.1.2))
         (filter (λ tr, tr.1.1 = o) trs) es_out
     ∧ fmt_money (Z.max (total_value (filter (λ tr, tr.1.2 = o) trs))
                        (total_value (filter (λ tr, tr.1.1 = o) trs)))
       = Some amount)
  ∨ node_hover_text fmt_money labels trs.*1.*1 trs.*1.*2 trs.*2
      vis_labels o2n v = ([], inl OverflowError).
Proof.
  intros Hname Ho Hb.
  assert (Hrun :
    node_hover_text fmt_money labels trs.*1.*1 trs.*1.*2 trs.*2
      vis_labels o2n v
    = bind (flows_loop fmt_money labels ((λ tr, tr.1.1) <$> ([] ++ trs))
              ([] ++ trs).*2 (Some o) (length (@nil (nat * nat * Z)))
              ((λ tr, tr.1.2) <$> trs) [] 0%Z)
        (λ inc,
           bind (flows_loop fmt_money labels
                   ((λ tr, tr.1.2) <$> ([] ++ trs)) ([] ++ trs).*2 (Some o)
                   (length (@nil (nat * nat * Z)))
                   ((λ tr, tr.1.1) <$> trs) [] 0%Z)
             (λ out,
                bind (node_header fmt_money name (Z.max inc.2 out.2))
                  (λ header, ret (hover_text header inc.1 out.1))))).
  { unfold node_hover_text.
    rewrite (getindex_Some _ _ _ Hname), bind_ret_l, Ho.
    unfold incoming_flows, outgoing_flows.
    by rewrite <-!list_fmap_compose. }
  destruct (flows_loop_cases labels (λ tr, tr.1.2) (λ tr, tr.1.1) o
              [] trs [] 0%Z) as [[es_in Hin]|Hfail].
  { intros tr Htr. by apply Hb. }
  2: { right. by rewrite Hrun, Hfail. }
  destruct (flows_loop_cases labels (λ tr, tr.1.1) (λ tr, tr.1.2) o
              [] trs [] 0%Z) as [[es_out Hout]|Hfail].
  { intros tr Htr. by apply Hb. }
  2: { right.
       rewrite Hrun, (flows_loop_spec _ _ _ _ [] _ _ _ _ Hin), bind_val.
       by rewrite Hfail. }
  destruct (fmt_money (Z.max (total_value (filter (λ tr, tr.1.2 = o) trs))
                             (total_value (filter (λ tr, tr.1.1 = o) trs))))
    as [amount|] eqn:Hamount.
  - left. by exists es_in, es_out, amount.
  - right.
    rewrite Hrun, (flows_loop_spec _ _ _ _ [] _ _ _ _ Hin), bind_val.
    rewrite (flows_loop_spec _ _ _ _ [] _ _ _ _ Hout), bind_val.
    cbn [fst snd]. rewrite !Z.add_0_l.
    rewrite (flow_rel_total _ _ _ _ Hin), (flow_rel_total _ _ _ _ Hout).
    unfold node_header. by rewrite (format_money_None _ Hamount).
Qed.

(** What a completed iteration of the node loop has computed. *)
Lemma node_hover_text_inv labels trs vis_labels o2n v name o text :
  vis_labels !! v = Some name →
  find_original o2n v = Some o →
  (∀ tr, tr ∈ trs →
         is_Some (labels !! tr.1.1) ∧ is_Some (labels !! tr.1.2)) →
  node_hover_text fmt_money labels trs.*1.*1 trs.*1.*2 trs.*2
    vis_labels o2n v = ([], inr text) →
  ∃ es_in es_out amount,
    Forall2 (flow_rel fmt_money labels (λ tr, tr.1.1))
      (filter (λ tr, tr.1.2 = o) trs) es_in
    ∧ Forall2 (flow_rel fmt_money labels (λ tr, tr.1.2))
        (filter (λ tr, tr.1.1 = o) trs) es_out
    ∧ fmt_money (Z.max (total_value (filter (λ tr, tr.1.2 = o) trs))
                       (total_value (filter (λ tr, tr.1.1 = o) trs)))
      = Some amount
    ∧ text = hover_text ("<b>" +:+ name +:+ ": " +:+ amount +:+ " zł</b>")
               es_in.*1 es_out.*1.
Proof.
  intros Hname Ho Hb Hrun.
  destruct (node_hover_text_cases labels trs vis_labels o2n v name o
              Hname Ho Hb) as [(es_in & es_out & amount & Hin & Hout & Ha)|Hf].
  - exists es_in, es_out, amount. split_and!; try done.
    rewrite (node_hover_text_spec _ _ _ _ _ _ _ _ _ _ Hname Ho Hin Hout Ha)
      in Hrun.
    by injection Hrun as <-.
  - by rewrite Hf in Hrun.
Qed.

Lemma node_hover_loop_spec labels S T V vis_labels o2n indices acc texts :
  Forall2 (λ v text,
             node_hover_text fmt_money labels S T V vis_labels o2n v
             = ([], inr text)) indices texts →
  node_hover_loop fmt_money labels S T V vis_labels o2n indices acc =
  ([], inr (acc ++ texts)).
Proof.
  intros H. revert acc. induction H as [|v text indices texts Hv _ IH];
    intros acc.
  - simpl. by rewrite app_nil_r.
  - cbn [node_hover_loop]. rewrite Hv, bind_val, IH.
    by rewrite <-app_assoc.
Qed.

Lemma node_hover_loop_cases labels S T V vis_labels o2n indices acc :
  Forall (λ v,
            (∃ text, node_hover_text fmt_money labels S T V vis_labels o2n v
                     = ([], inr text))
            ∨ node_hover_text fmt_money labels S T V vis_labels o2n v
              = ([], inl OverflowError)) indices →
  (∃ texts,
     Forall2 (λ v text,
                node_hover_text fmt_money labels S T V vis_labels o2n v
                = ([], inr text)) indices texts)
  ∨ (node_hover_loop fmt_money labels S T V vis_labels o2n indices acc
     = ([], inl OverflowError) ∧ indices ≠ []).
Proof.
  intros H. revert acc.
  induction H as [|v indices [[text Hv]|Hv] _ IH]; intros acc.
  - left. exists []. constructor.
  - destruct (IH (acc ++ [text])) as [[texts Htexts]|[Hfail _]].
    + left. exists (text :: texts). by constructor.
    + right. split; [|done]. cbn [node_hover_loop].
      by rewrite Hv, bind_val.
  - right. split; [|done]. cbn [node_hover_loop]. by rewrite Hv.
Qed.

Lemma colors_spec (l : list nat) :
  ∃ colors,
    comprehension (λ i, getindex base_colors (i mod length base_colors)) l
    = ([], inr colors) ∧ length colors = length l.
Proof.
  induction l as [|i l (colors & IH & Hlen)]; [by exists []|].
  destruct (lookup_lt_is_Some_2 base_colors (i mod length base_colors))
    as [c Hc].
  { apply Nat.mod_upper_bound. done. }
  exists (c :: colors). cbn [comprehension].
  rewrite (getindex_Some _ _ _ Hc), bind_ret_l, IH, bind_val.
  split; [done|]. simpl. by rewrite Hlen.
Qed.

Lemma report_spec hidden leftmost rightmost :
  report hidden leftmost rightmost =
  (report_events hidden leftmost rightmost, inr tt).
Proof. reflexivity. Qed.

(** ** The whole script *)

Ltac globals_simpl :=
  cbn [node_ids node_labels node_id_to_index all_sources all_targets
       all_values has_incoming has_outgoing leftmost_nodes rightmost_nodes
       hidden_nodes visible_node_ids visible_node_labels old_to_new_index
       sources targets values hover_labels node_hover_labels fig] in *.

Lemma bind_emit {A B} (k : A → M B) out a out' r :
  k a = (out', r) → bind (out, inr a) k = (out ++ out', r).
Proof. unfold bind. by intros ->. Qed.

Lemma visible_keys (hidden : gset nat) (ids names : list string) :
  length names = length ids →
  (kept hidden 0 (zip ids names)).*1
  = filter (λ o, o ∉ hidden) (seq 0 (length ids)).
Proof.
  intros Hlen. rewrite kept_fst, length_zip_with. do 2 f_equal. lia.
Qed.

Lemma visible_keys_NoDup (hidden : gset nat) n : NoDup (filter (λ o, o ∉ hidden) (seq 0 n)).
Proof. apply NoDup_filter, NoDup_seq. Qed.

Lemma visible_in_dict (hidden : gset nat) n o :
  o < n → o ∉ hidden →
  ∃ v, dict_get (zip (filter (λ o, o ∉ hidden) (seq 0 n))
                     (seq 0 (length (filter (λ o, o ∉ hidden) (seq 0 n))))) o
       = Some v.
Proof.
  intros Ho Hh.
  assert (o ∈ filter (λ o, o ∉ hidden) (seq 0 n)) as [v Hv]%list_elem_of_lookup_1.
  { apply list_elem_of_filter. split; [done|]. apply elem_of_seq. lia. }
  exists v. apply dict_get_zip_seq; [apply visible_keys_NoDup|].
  split; [lia|]. by rewrite Nat.sub_0_r.
Qed.

Lemma nonempty_elem {A} (l : list A) : l ≠ [] → ∃ x, x ∈ l.
Proof. destruct l as [|x l]; [done|]. exists x. left. Qed.

(** On a document whose objects have all their keys the script either
    reaches its last line, or ends with [OverflowError] in the annotator,
    after the report and before anything is written; the latter needs a
    visible node. *)
Lemma script_cases data nodes links ids names :
  nodes_key data = Some nodes → links_key data = Some links →
  mapM node_id_key nodes = Some ids → mapM node_name_key nodes = Some names →
  forallb link_complete links = true →
  let idx := index_from 0 ids ∅ in
  let trs := resolved idx links in
  let leftmost := leftmost_of (length ids) trs.*1.*2 in
  let rightmost := rightmost_of (length ids) trs.*1.*1 in
  let hidden := hidden_of (length ids) trs.*1.*1 trs.*1.*2 in
  (∃ out g, script fmt_money data = (out, inr g)
            ∧ run_facts fmt_money data nodes links out g)
  ∨ (script fmt_money data
     = (warnings idx links ++ report_events hidden leftmost rightmost,
        inl OverflowError)
     ∧ filter (λ o, o ∉ hidden) (seq 0 (length ids)) ≠ []).
Proof.
  intros Hn Hl Hids Hnames Hc. unfold hidden_of, leftmost_of, rightmost_of.
  assert (Hlen : length names = length ids).
  { apply mapM_Some_1, Forall2_length in Hids.
    apply mapM_Some_1, Forall2_length in Hnames. congruence. }
  set (idx := index_from 0 ids ∅). set (trs := resolved idx links).
  set (leftmost := range_set (length ids) ∖ has_incoming_of trs.*1.*2).
  set (rightmost := range_set (length ids) ∖ has_outgoing_of trs.*1.*1).
  set (hidden := leftmost ∪ rightmost). cbv zeta.
  set (kp := kept hidden 0 (zip ids names)).
  set (o2n := zip kp.*1 (seq 0 (length kp))).
  assert (HK : kp.*1 = filter (λ o, o ∉ hidden) (seq 0 (length ids))).
  { by apply visible_keys. }
  assert (Ho2n : o2n = zip (filter (λ o, o ∉ hidden) (seq 0 (length ids)))
            (seq 0 (length (filter (λ o, o ∉ hidden) (seq 0 (length ids)))))).
  { unfold o2n. rewrite <-HK. by rewrite length_fmap. }
  assert (Hbound : ∀ tr, tr ∈ trs → tr.1.1 < length ids ∧ tr.1.2 < length ids).
  { intros [[i j] v] Htr. by apply resolved_bound in Htr. }
  destruct (Forall2_exists_r (reindexed o2n)
              (filter (both_visible hidden) trs)) as [ts Hts].
  { intros [[s t] v] [[Hs Ht] Htr]%list_elem_of_filter.
    apply Hbound in Htr as [Hsn Htn]. cbn [fst snd] in *.
    destruct (visible_in_dict hidden _ _ Hsn Hs) as [s' Hs'].
    destruct (visible_in_dict hidden _ _ Htn Ht) as [t' Ht'].
    exists (s', t', v). rewrite Ho2n. by split_and!. }
  assert (Hnew : ∀ o v, dict_get o2n o = Some v → kp.*1 !! v = Some o).
  { intros o v Hv. rewrite Ho2n in Hv.
    apply dict_get_zip_seq in Hv as [_ Hv]; [|apply visible_keys_NoDup].
    by rewrite Nat.sub_0_r, <-HK in Hv. }
  assert (Hvis : ∀ v, v < length kp → is_Some (kp.*2.*2 !! v)).
  { intros v Hv. apply lookup_lt_is_Some_2. by rewrite !length_fmap. }
  assert (Hts_bound :
    Forall (λ tr, is_Some (kp.*2.*2 !! tr.1.1) ∧ is_Some (kp.*2.*2 !! tr.1.2))
      ts).
  { apply Forall_forall. intros tr' [k Hk]%list_elem_of_lookup_1.
    destruct (Forall2_lookup_r _ _ _ _ _ Hts Hk) as (tr & _ & Hs & Ht & _).
    apply Hnew, lookup_lt_Some in Hs. apply Hnew, lookup_lt_Some in Ht.
    rewrite length_fmap in Hs, Ht. split; by apply Hvis. }
  assert (Hlabels : ∀ tr, tr ∈ trs →
            is_Some (names !! tr.1.1) ∧ is_Some (names !! tr.1.2)).
  { intros tr [Hs Ht]%Hbound. rewrite <-Hlen in Hs, Ht.
    split; by apply lookup_lt_is_Some_2. }
  (* the run up to the annotator *)
  evar (tail : M globals).
  assert (Hscript : ∀ out' r, tail = (out', r) →
            script fmt_money data
            = (warnings idx links
               ++ report_events hidden leftmost rightmost ++ out', r)).
  { intros out' r Htail.
    unfold script. rewrite Hn, Hl, !getitem_Some, bind_ret_l.
    rewrite comprehension_getitem, Hids, bind_val, bind_ret_l.
    rewrite comprehension_getitem, Hnames, bind_val, bind_ret_l.
    rewrite resolve_links_complete by done.
    apply bind_emit. fold idx trs.
    unfold append_columns. cbn [fst snd app].
    fold leftmost rightmost hidden. rewrite report_spec.
    apply bind_emit.
    rewrite visible_loop_spec. cbn [rs_visible_node_ids rs_visible_node_labels
      rs_old_to_new_index rs_new_index app]. fold kp o2n.
    rewrite (filter_loop_spec _ _ _ _ ts) by (by rewrite zip3_columns).
    rewrite bind_val. unfold append_columns. cbn [fst snd app].
    rewrite zip3_columns. exact Htail. }
  assert (Hfail : tail = ([], inl OverflowError) →
            script fmt_money data
            = (warnings idx links ++ report_events hidden leftmost rightmost,
               inl OverflowError)).
  { intros Htail%Hscript. by rewrite app_nil_r in Htail. }
  destruct (link_hover_loop_cases kp.*2.*2 ts [] Hts_bound)
    as [[hs Hhs]|[Hhf Hne]].
  2: { right. split.
       - apply Hfail. unfold tail. by rewrite Hhf.
       - destruct (nonempty_elem ts Hne) as [tr' [k Hk]%list_elem_of_lookup_1].
         destruct (Forall2_lookup_r _ _ _ _ _ Hts Hk)
           as (tr & Htr%list_elem_of_lookup_2 & _).
         apply list_elem_of_filter in Htr as [[Hs _] [Hsn _]%Hbound].
         intros Hnil. apply (filter_nil_not_elem_of _ _ _ Hnil Hs).
         apply elem_of_seq. lia. }
  destruct (node_hover_loop_cases names trs.*1.*1 trs.*1.*2 trs.*2
              kp.*2.*2 o2n (seq 0 (length kp.*2.*1)) []) as [[nhs Hnhs]|[Hnf Hne]].
  { apply Forall_forall. intros v [_ Hv]%elem_of_seq.
    rewrite !length_fmap in Hv. simpl in Hv.
    destruct (Hvis _ Hv) as [name Hname].
    destruct (lookup_lt_is_Some_2 kp.*1 v) as [o Ho];
      [by rewrite length_fmap|].
    assert (find_original o2n v = Some o) as Hfind.
    { unfold o2n. rewrite <-(length_fmap fst kp), find_original_zip_seq.
      rewrite decide_True by lia. by rewrite Nat.sub_0_r. }
    destruct (node_hover_text_cases names trs kp.*2.*2 o2n v name o
                Hname Hfind Hlabels)
      as [(es_in & es_out & amount & Hin & Hout & Ha)|Hf]; [left|by right].
    eexists. by eapply node_hover_text_spec. }
  2: { right. split.
       - apply Hfail. unfold tail.
         by rewrite (link_hover_loop_spec _ _ _ hs Hhs), bind_val, Hnf.
       - rewrite <-HK. intros Hnil%fmap_nil_inv.
         apply Hne. by rewrite Hnil. }
  left.
  destruct (colors_spec (seq 0 (length kp.*2.*2))) as (colors & Hcol & Hcollen).
  rewrite length_seq in Hcollen.
  set (figure := Figure kp.*2.*2 colors nhs ts.*1.*1 ts.*1.*2 ts.*2 hs).
  exists (warnings idx links ++ report_events hidden leftmost rightmost
          ++ final_events figure),
    (Globals ids names idx trs.*1.*1 trs.*1.*2 trs.*2
       (has_incoming_of trs.*1.*2) (has_outgoing_of trs.*1.*1)
       leftmost rightmost hidden kp.*2.*1 kp.*2.*2 o2n
       ts.*1.*1 ts.*1.*2 ts.*2 hs nhs figure).
  split.
  - apply Hscript. unfold tail.
    rewrite (link_hover_loop_spec _ _ _ hs Hhs), bind_val. cbn [app].
    rewrite (node_hover_loop_spec _ _ _ _ _ _ _ _ nhs) by done.
    rewrite bind_val. cbn [app]. rewrite Hcol, bind_val.
    reflexivity.
  - split; globals_simpl; try done.
    + by exists ts.
    + by rewrite zip3_columns.
    + by exists colors.
Qed.


Lemma node_complete_forallb nodes :
  forallb node_complete nodes = true ↔
  is_Some (mapM node_id_key nodes) ∧ is_Some (mapM node_name_key nodes).
Proof.
  rewrite !mapM_is_Some, forallb_forall, !Forall_forall.
  setoid_rewrite <-list_elem_of_In. unfold node_complete, compose. split.
  - intros H. split; intros node Hnode; specialize (H node Hnode);
      destruct (node_id_key node), (node_name_key node); done.
  - intros [H1 H2] node Hnode.
    destruct (H1 node Hnode) as [? ->], (H2 node Hnode) as [? ->]. done.
Qed.

Lemma well_formed_inv data :
  well_formed data = true →
  ∃ nodes links ids names,
    nodes_key data = Some nodes ∧ links_key data = Some links
    ∧ mapM node_id_key nodes = Some ids
    ∧ mapM node_name_key nodes = Some names
    ∧ forallb link_complete links = true.
Proof.
  unfold well_formed.
  destruct (nodes_key data) as [nodes|]; [|done].
  destruct (links_key data) as [links|]; [|done].
  intros [[[ids Hids] [names Hnames]]%node_complete_forallb Hl]%andb_prop.
  by exists nodes, links, ids, names.
Qed.

Lemma script_malformed data :
  well_formed data = false →
  ∃ out k, script fmt_money data = (out, inl (KeyError (KStr k)))
    ∧ k ∈ required_keys ∧ Forall is_warning out.
Proof.
  unfold well_formed, script, required_keys. intros Hwf.
  destruct (nodes_key data) as [nodes|]; cycle 1.
  { exists [], "nodes". split_and!; [done|set_solver|done]. }
  rewrite !getitem_Some, bind_ret_l, comprehension_getitem.
  destruct (mapM node_id_key nodes) as [ids|] eqn:Hids; cycle 1.
  { exists [], "id". split_and!; [done|set_solver|done]. }
  rewrite bind_val, bind_ret_l, comprehension_getitem.
  destruct (mapM node_name_key nodes) as [names|] eqn:Hnames; cycle 1.
  { exists [], "name". split_and!; [done|set_solver|done]. }
  rewrite bind_val.
  destruct (links_key data) as [links|]; cycle 1.
  { exists [], "links". split_and!; [done|set_solver|done]. }
  rewrite getitem_Some, bind_ret_l.
  assert (forallb node_complete nodes = true) as Hnc.
  { apply node_complete_forallb. by rewrite Hids, Hnames. }
  rewrite Hnc in Hwf. simpl in Hwf.
  destruct (resolve_links_incomplete (index_from 0 ids ∅) links ([], [], [])
              Hwf) as (out & k & -> & Hk & Hout).
  exists out, k. split_and!; [done|set_solver|done].
Qed.

Lemma script_inv data out g :
  script fmt_money data = (out, inr g) →
  ∃ nodes links, run_facts fmt_money data nodes links out g.
Proof.
  intros Hrun. destruct (well_formed data) eqn:Hwf.
  - apply well_formed_inv in Hwf
      as (nodes & links & ids & names & Hn & Hl & Hids & Hnames & Hc).
    destruct (script_cases _ _ _ _ _ Hn Hl Hids Hnames Hc)
      as [(out' & g' & Hrun' & Hfacts)|[Hrun' _]].
    + rewrite Hrun in Hrun'. injection Hrun' as <- <-. eauto.
    + by rewrite Hrun in Hrun'.
  - apply script_malformed in Hwf as (out' & k & Hrun' & _).
    by rewrite Hrun in Hrun'.
Qed.

(** A run that does not reach its last line ended in the loader, with the
    [KeyError] of a required key, or in the annotator, with
    [OverflowError]. *)
Lemma script_failure data out e :
  script fmt_money data = (out, inl e) →
  (∃ k, e = KeyError (KStr k) ∧ k ∈ required_keys) ∨ e = OverflowError.
Proof.
  intros Hrun. destruct (well_formed data) eqn:Hwf.
  - apply well_formed_inv in Hwf
      as (nodes & links & ids & names & Hn & Hl & Hids & Hnames & Hc).
    destruct (script_cases _ _ _ _ _ Hn Hl Hids Hnames Hc)
      as [(out' & g' & Hrun' & _)|[Hrun' _]]; rewrite Hrun in Hrun'.
    + done.
    + injection Hrun' as _ ->. by right.
  - apply script_malformed in Hwf as (out' & k & Hrun' & Hk & _).
    rewrite Hrun in Hrun'. injection Hrun' as _ ->. eauto.
Qed.


(** A document that lacks a collection or a required field is not
    well-formed. *)
Lemma missing_key_not_well_formed data :
  nodes_key data = None ∨ links_key data = None
  ∨ (∃ nodes node, nodes_key data = Some nodes ∧ node ∈ nodes
       ∧ (node_id_key node = None ∨ node_name_key node = None))
  ∨ (∃ links link, links_key data = Some links ∧ link ∈ links
       ∧ (link_source_key link = None ∨ link_target_key link = None
          ∨ link_value_key link = None)) →
  well_formed data = false.
Proof.
  intros Hmiss. destruct (well_formed data) eqn:Hwf; [exfalso|done].
  unfold well_formed in Hwf.
  destruct (nodes_key data) as [nodes|]; [|done].
  destruct (links_key data) as [links|]; [|done].
  apply andb_prop in Hwf as [Hn Hl]. rewrite forallb_forall in Hn, Hl.
  destruct Hmiss as [?|[?|[(? & node & [= <-] & Hin & Hnone)
                          |(? & link & [= <-] & Hin & Hnone)]]]; try done.
  - apply list_elem_of_In, Hn in Hin. unfold node_complete in Hin.
    destruct (node_id_key node), (node_name_key node); naive_solver.
  - apply list_elem_of_In, Hl in Hin. unfold link_complete in Hin.
    destruct (link_source_key link), (link_target_key link),
      (link_value_key link); naive_solver.
Qed.

(** ** Consequences of [run_facts] *)

Section Facts.

Context {data : document} {nodes : list node_obj} {links : list link_obj}
  {out : list event} {g : globals}
  (F : run_facts fmt_money data nodes links out g).

Lemma facts_labels_length : length (node_labels g) = length (node_ids g).
Proof.
  pose proof (rf_ids _ _ _ _ _ _ F) as H1.
  pose proof (rf_labels _ _ _ _ _ _ F) as H2.
  apply mapM_Some_1, Forall2_length in H1.
  apply mapM_Some_1, Forall2_length in H2. congruence.
Qed.

Lemma facts_links_of : links_of g = resolved (node_id_to_index g) links.
Proof.
  unfold links_of.
  rewrite (rf_sources _ _ _ _ _ _ F), (rf_targets _ _ _ _ _ _ F),
    (rf_values _ _ _ _ _ _ F). apply zip3_columns.
Qed.

Lemma facts_columns :
  all_sources g = (links_of g).*1.*1 ∧ all_targets g = (links_of g).*1.*2
  ∧ all_values g = (links_of g).*2.
Proof.
  rewrite facts_links_of.
  by rewrite (rf_sources _ _ _ _ _ _ F), (rf_targets _ _ _ _ _ _ F),
    (rf_values _ _ _ _ _ _ F).
Qed.

Lemma facts_bound tr :
  tr ∈ links_of g →
  tr.1.1 < length (node_ids g) ∧ tr.1.2 < length (node_ids g).
Proof.
  rewrite facts_links_of, (rf_index _ _ _ _ _ _ F).
  destruct tr as [[i j] v]. apply resolved_bound.
Qed.

Lemma facts_hidden :
  hidden_nodes g =
  (range_set (length (node_ids g)) ∖ list_to_set (all_targets g))
  ∪ (range_set (length (node_ids g)) ∖ list_to_set (all_sources g)).
Proof.
  by rewrite (rf_hidden _ _ _ _ _ _ F), (rf_leftmost _ _ _ _ _ _ F),
    (rf_rightmost _ _ _ _ _ _ F), (rf_has_incoming _ _ _ _ _ _ F),
    (rf_has_outgoing _ _ _ _ _ _ F).
Qed.

(** The original indices of the visible nodes, in increasing order. *)
Lemma facts_keys :
  (old_to_new_index g).*1
  = filter (λ o, o ∉ hidden_nodes g) (seq 0 (length (node_ids g))).
Proof.
  rewrite (rf_old_to_new _ _ _ _ _ _ F), fst_zip.
  - apply visible_keys, facts_labels_length.
  - by rewrite length_seq, length_fmap.
Qed.

Lemma facts_old_to_new :
  old_to_new_index g
  = zip (old_to_new_index g).*1 (seq 0 (length (old_to_new_index g).*1)).
Proof.
  rewrite (rf_old_to_new _ _ _ _ _ _ F), fst_zip.
  - by rewrite length_fmap.
  - by rewrite length_seq, length_fmap.
Qed.

Lemma facts_visible_length :
  length (visible_node_ids g) = length (old_to_new_index g).*1
  ∧ length (visible_node_labels g) = length (old_to_new_index g).*1.
Proof.
  rewrite (rf_visible_ids _ _ _ _ _ _ F), (rf_visible_labels _ _ _ _ _ _ F),
    (rf_old_to_new _ _ _ _ _ _ F).
  rewrite !length_fmap, !length_zip_with, !length_seq, !length_fmap. lia.
Qed.

Lemma facts_dict_get o v :
  dict_get (old_to_new_index g) o = Some v ↔
  (old_to_new_index g).*1 !! v = Some o.
Proof.
  pose proof facts_old_to_new as H. pose proof facts_keys as HK.
  set (K := (old_to_new_index g).*1) in *. rewrite H, dict_get_zip_seq.
  - rewrite Nat.sub_0_r. naive_solver lia.
  - rewrite HK. apply visible_keys_NoDup.
Qed.

Lemma facts_find_original v :
  find_original (old_to_new_index g) v = (old_to_new_index g).*1 !! v.
Proof.
  pose proof facts_old_to_new as H.
  set (K := (old_to_new_index g).*1) in *. rewrite H, find_original_zip_seq.
  rewrite decide_True by lia. by rewrite Nat.sub_0_r.
Qed.

Lemma facts_visible_label v o :
  (old_to_new_index g).*1 !! v = Some o →
  ∃ name, visible_node_labels g !! v = Some name
          ∧ node_labels g !! o = Some name.
Proof.
  rewrite (rf_old_to_new _ _ _ _ _ _ F), (rf_visible_labels _ _ _ _ _ _ F).
  rewrite fst_zip by (by rewrite length_seq, length_fmap).
  rewrite !list_lookup_fmap.
  destruct (kept _ _ _ !! v) as [[o' [node_id name]]|] eqn:Hk; [|done].
  intros [= ->]. exists name. split; [done|].
  apply kept_lookup in Hk as (_ & _ & Hk). rewrite Nat.sub_0_r in Hk.
  apply lookup_zip_with_Some in Hk as (? & ? & [= <- <-] & _ & ?). done.
Qed.

End Facts.


Lemma filter_nil_iff {A} (P : A → Prop) `{!∀ x, Decision (P x)} (l : list A) :
  filter P l = [] ↔ ∀ x, x ∈ l → ¬ P x.
Proof.
  split.
  - intros Hnil x Hx HP. by eapply filter_nil_not_elem_of.
  - intros Hall. destruct (filter P l) as [|x k] eqn:Hf; [done|].
    assert (x ∈ filter P l) as [HP Hx]%list_elem_of_filter
      by (rewrite Hf; left).
    by destruct (Hall x).
Qed.

Lemma incoming_of_nil (g : globals) i :
  all_targets g = (links_of g).*1.*2 →
  incoming_of g i = [] ↔ i ∉ all_targets g.
Proof.
  intros ->. unfold incoming_of. rewrite filter_nil_iff.
  rewrite <-list_fmap_compose, list_elem_of_fmap. unfold compose.
  naive_solver.
Qed.

Lemma outgoing_of_nil (g : globals) i :
  all_sources g = (links_of g).*1.*1 →
  outgoing_of g i = [] ↔ i ∉ all_sources g.
Proof.
  intros ->. unfold outgoing_of. rewrite filter_nil_iff.
  rewrite <-list_fmap_compose, list_elem_of_fmap. unfold compose.
  naive_solver.
Qed.

(** * The claims *)





(** C10. In every run that reaches its last line, [old_to_new_index] maps
    exactly the original indices that are not hidden, its values lie in
    [range(len(visible_node_ids))], it is strictly increasing, and every
    new index [v] of that range has exactly one original index [o] with
    [old_to_new_index[o] == v], which is the one the reverse lookup of the
    annotator finds: [original_idx] is never [None]. *)
Theorem old_to_new_index_bijection data out g :
  script fmt_money data = (out, inr g) →
  (∀ o, is_Some (dict_get (old_to_new_index g) o) ↔
        o < length (node_ids g) ∧ o ∉ hidden_nodes g)
  ∧ (∀ o v, dict_get (old_to_new_index g) o = Some v →
            v < length (visible_node_ids g))
  ∧ (∀ o1 o2 v1 v2,
       dict_get (old_to_new_index g) o1 = Some v1 →
       dict_get (old_to_new_index g) o2 = Some v2 →
       o1 < o2 → v1 < v2)
  ∧ (∀ v, v < length (visible_node_ids g) →
       ∃ o, dict_get (old_to_new_index g) o = Some v
            ∧ (∀ o', dict_get (old_to_new_index g) o' = Some v → o' = o)
            ∧ find_original (old_to_new_index g) v = Some o).
Proof.
  intros (nodes & links & F)%script_inv.
  destruct (facts_visible_length F) as [Hlen _].
  pose proof (facts_keys F) as HK.
  split_and!.
  - intros o. split.
    + intros [v Hv%(facts_dict_get F)%list_elem_of_lookup_2].
      rewrite HK in Hv.
      apply list_elem_of_filter in Hv as [Hh Hv%elem_of_seq].
      split; [lia|done].
    + intros [Ho Hh].
      assert (o ∈ (old_to_new_index g).*1) as [v Hv]%list_elem_of_lookup_1.
      { rewrite HK. apply list_elem_of_filter. split; [done|].
        apply elem_of_seq. lia. }
      exists v. by apply (facts_dict_get F).
  - intros o v Hv%(facts_dict_get F)%lookup_lt_Some. by rewrite Hlen.
  - intros o1 o2 v1 v2 H1%(facts_dict_get F) H2%(facts_dict_get F) Hlt.
    rewrite HK in H1, H2.
    destruct (decide (v1 < v2)) as [|Hge]; [done|].
    destruct (decide (v1 = v2)) as [->|Hne]; [simplify_eq; lia|].
    assert (o2 < o1); [|lia].
    eapply (filter_seq_lookup_lt _ _ _ v2 v1); [done..|lia].
  - intros v Hv. rewrite Hlen in Hv.
    destruct (lookup_lt_is_Some_2 _ _ Hv) as [o Ho]. exists o. split_and!.
    + by apply (facts_dict_get F).
    + intros o' Ho'%(facts_dict_get F). congruence.
    + by rewrite (facts_find_original F).
Qed.


Lemma facts_filtered {data nodes links out g}
    (F : run_facts fmt_money data nodes links out g) :
  Forall2 (reindexed (old_to_new_index g))
    (filter (both_visible (hidden_nodes g)) (links_of g)) (filtered_of g)
  ∧ sources g = (filtered_of g).*1.*1 ∧ targets g = (filtered_of g).*1.*2
  ∧ values g = (filtered_of g).*2.
Proof.
  destruct (rf_filtered _ _ _ _ _ _ F) as (ts & Hts & HS & HT & HV).
  unfold filtered_of. rewrite HS, HT, HV, zip3_columns, (facts_links_of F).
  done.
Qed.


(** C4. Every source and target index of the filtered links is smaller
    than [len(visible_node_labels)], so that the label lookups of the hover
    loop are in bounds: in a run that reaches its last line all these
    indices are in range, and no run ends with the [IndexError] of a list
    subscript or the [KeyError] of an [old_to_new_index] lookup. *)
Theorem filtered_indices_in_range data out r :
  script fmt_money data = (out, r) →
  match r with
  | inr g =>
      Forall (λ i, i < length (visible_node_labels g)) (sources g)
      ∧ Forall (λ i, i < length (visible_node_labels g)) (targets g)
      ∧ (∀ tr, tr ∈ filtered_of g →
           is_Some (visible_node_labels g !! tr.1.1)
           ∧ is_Some (visible_node_labels g !! tr.1.2))
  | inl e => e ≠ IndexError ∧ ∀ i, e ≠ KeyError (KInt i)
  end.
Proof.
  intros Hrun. destruct r as [e|g].
  { apply script_failure in Hrun as [(k & -> & _)| ->]; by split. }
  apply script_inv in Hrun as (nodes & links & F).
  destruct (facts_filtered F) as (_ & HS & HT & _).
  assert (Hin : ∀ tr, tr ∈ filtered_of g →
            is_Some (visible_node_labels g !! tr.1.1)
            ∧ is_Some (visible_node_labels g !! tr.1.2)).
  { intros tr [k Hk]%list_elem_of_lookup_1.
    destruct (Forall2_lookup_l _ _ _ _ _ (rf_hover _ _ _ _ _ _ F) Hk)
      as (h & _ & a & b & amount & Ha & Hb & _). eauto. }
  split_and!; [| |done].
  - rewrite HS, <-list_fmap_compose. apply Forall_fmap, Forall_forall.
    intros tr [Hs _]%Hin. by apply lookup_lt_is_Some.
  - rewrite HT, <-list_fmap_compose. apply Forall_fmap, Forall_forall.
    intros tr [_ Ht]%Hin. by apply lookup_lt_is_Some.
Qed.


Lemma string_app_nil_r (s : string) : s +:+ "" = s.
Proof.
  induction s as [|c s IH]; [done|]. exact (f_equal (String c) IH).
Qed.

Lemma concat_cons_empty_sep (x : string) (l : list string) :
  String.concat "" (x :: l) = x +:+ String.concat "" l.
Proof. destruct l; simpl; [by rewrite string_app_nil_r|done]. Qed.

Lemma hover_text_header header incoming outgoing :
  ∃ rest, hover_text header incoming outgoing = header +:+ rest.
Proof.
  unfold hover_text.
  destruct incoming, outgoing; cbn [app]; rewrite concat_cons_empty_sep; eauto.
Qed.

(** The summary of a node with flows on both sides. *)
Lemma hover_text_both header incoming outgoing :
  incoming ≠ [] → outgoing ≠ [] →
  hover_text header incoming outgoing
  = String.concat ""
      ([header; "<br><br>Wpływy:"]
       ++ map (λ line, "<br>" +:+ line) incoming
       ++ ["<br><br>Wypływy:"]
       ++ map (λ line, "<br>" +:+ line) outgoing).
Proof.
  intros Hi Ho. unfold hover_text.
  destruct incoming as [|line1 incoming]; [done|].
  destruct outgoing as [|line2 outgoing]; [done|].
  by rewrite <-!app_assoc.
Qed.

Lemma incoming_flows_spec labels trs o es :
  Forall2 (flow_rel fmt_money labels (λ tr, tr.1.1))
    (filter (λ tr, tr.1.2 = o) trs) es →
  incoming_flows fmt_money labels trs.*1.*1 trs.*1.*2 trs.*2 (Some o)
  = ([], inr (es.*1, total_value (filter (λ tr, tr.1.2 = o) trs))).
Proof.
  intros Hin. unfold incoming_flows.
  pose proof (flows_loop_spec labels (λ tr, tr.1.2) (λ tr, tr.1.1) o
                [] trs [] 0%Z es Hin) as H1.
  cbn [app length] in H1. rewrite <-!list_fmap_compose. unfold compose.
  by rewrite H1, Z.add_0_l, (flow_rel_total _ _ _ _ Hin).
Qed.

Lemma outgoing_flows_spec labels trs o es :
  Forall2 (flow_rel fmt_money labels (λ tr, tr.1.2))
    (filter (λ tr, tr.1.1 = o) trs) es →
  outgoing_flows fmt_money labels trs.*1.*1 trs.*1.*2 trs.*2 (Some o)
  = ([], inr (es.*1, total_value (filter (λ tr, tr.1.1 = o) trs))).
Proof.
  intros Hout. unfold outgoing_flows.
  pose proof (flows_loop_spec labels (λ tr, tr.1.1) (λ tr, tr.1.2) o
                [] trs [] 0%Z es Hout) as H1.
  cbn [app length] in H1. rewrite <-!list_fmap_compose. unfold compose.
  by rewrite H1, Z.add_0_l, (flow_rel_total _ _ _ _ Hout).
Qed.

(** What the node loop has computed for the visible node of original
    index [o] and new index [v]. *)
Lemma facts_node_hover {data nodes links out g}
    (F : run_facts fmt_money data nodes links out g) o v :
  (old_to_new_index g).*1 !! v = Some o →
  ∃ name es_in es_out amount,
    visible_node_labels g !! v = Some name
    ∧ Forall2 (flow_rel fmt_money (node_labels g) (λ tr, tr.1.1))
        (incoming_of g o) es_in
    ∧ Forall2 (flow_rel fmt_money (node_labels g) (λ tr, tr.1.2))
        (outgoing_of g o) es_out
    ∧ es_in ≠ [] ∧ es_out ≠ []
    ∧ fmt_money (Z.max (total_value (incoming_of g o))
                       (total_value (outgoing_of g o))) = Some amount
    ∧ node_hover_labels g !! v
      = Some (hover_text ("<b>" +:+ name +:+ ": " +:+ amount +:+ " zł</b>")
                es_in.*1 es_out.*1).
Proof.
  intros Hv. destruct (facts_columns F) as (HS & HT & HV).
  destruct (facts_visible_length F) as [Hlen _].
  destruct (facts_visible_label F _ _ Hv) as (name & Hname & _).
  assert (seq 0 (length (visible_node_ids g)) !! v = Some v) as Hseq.
  { apply lookup_seq. split; [done|]. rewrite Hlen.
    by apply lookup_lt_Some in Hv. }
  destruct (Forall2_lookup_l _ _ _ _ _ (rf_node_hover _ _ _ _ _ _ F) Hseq)
    as (text & Htext & Hrun).
  rewrite HS, HT, HV in Hrun.
  apply (node_hover_text_inv _ _ _ _ _ name o) in Hrun
    as (es_in & es_out & amount & Hin & Hout & Hamount & ->);
    [|done|by rewrite (facts_find_original F)|].
  2: { intros tr [Hs Ht]%(facts_bound F).
       rewrite <-(facts_labels_length F) in Hs, Ht.
       split; by apply lookup_lt_is_Some_2. }
  assert (o ∉ hidden_nodes g) as Hvis.
  { apply list_elem_of_lookup_2 in Hv. rewrite (facts_keys F) in Hv.
    by apply list_elem_of_filter in Hv as [? _]. }
  assert (o < length (node_ids g)) as Ho.
  { apply list_elem_of_lookup_2 in Hv. rewrite (facts_keys F) in Hv.
    apply list_elem_of_filter in Hv as [_ ?%elem_of_seq]. lia. }
  assert (incoming_of g o ≠ [] ∧ outgoing_of g o ≠ []) as [Hi Ho'].
  { rewrite (incoming_of_nil g o HT), (outgoing_of_nil g o HS).
    rewrite (facts_hidden F) in Hvis. unfold range_set in Hvis.
    rewrite elem_of_union, !elem_of_difference, !elem_of_list_to_set,
      elem_of_seq in Hvis.
    split; intros ?; apply Hvis; [left|right]; split; (lia || done). }
  exists name, es_in, es_out, amount. split_and!; try done.
  - intros ->. apply Forall2_nil_inv_r in Hin. done.
  - intros ->. apply Forall2_nil_inv_r in Hout. done.
Qed.

(** C2. In every run that reaches its last line, for a visible node of
    original index [o] and new index [v]: the reverse lookup at [v] finds
    [o]; [total_incoming] is the sum of the values of all resolved links
    of the unfiltered list whose target is [o], [total_outgoing] the sum
    over those whose source is [o], whether or not the other endpoint is
    hidden; the itemised lines are those of these links, in order, each
    with the label of the other endpoint and the formatted value; and the
    summary of the node is the header [<b>name: amount zł</b>], where
    [amount] is the larger of the two totals, formatted, followed by the
    two itemised sections. *)
Theorem node_totals data out g o v :
  script fmt_money data = (out, inr g) →
  dict_get (old_to_new_index g) o = Some v →
  find_original (old_to_new_index g) v = Some o
  ∧ ∃ name incoming outgoing amount,
      visible_node_labels g !! v = Some name
      ∧ node_labels g !! o = Some name
      ∧ incoming_flows fmt_money (node_labels g) (all_sources g)
          (all_targets g) (all_values g) (Some o)
        = ([], inr (incoming, total_value (incoming_of g o)))
      ∧ outgoing_flows fmt_money (node_labels g) (all_sources g)
          (all_targets g) (all_values g) (Some o)
        = ([], inr (outgoing, total_value (outgoing_of g o)))
      ∧ Forall2 (λ tr line, ∃ source_name value,
                   node_labels g !! tr.1.1 = Some source_name
                   ∧ fmt_money tr.2 = Some value
                   ∧ line = "  • " +:+ source_name +:+ ": " +:+ value
                            +:+ " zł")
          (incoming_of g o) incoming
      ∧ Forall2 (λ tr line, ∃ target_name value,
                   node_labels g !! tr.1.2 = Some target_name
                   ∧ fmt_money tr.2 = Some value
                   ∧ line = "  • " +:+ target_name +:+ ": " +:+ value
                            +:+ " zł")
          (outgoing_of g o) outgoing
      ∧ fmt_money (Z.max (total_value (incoming_of g o))
                         (total_value (outgoing_of g o))) = Some amount
      ∧ node_hover_labels g !! v
        = Some (String.concat ""
                  (["<b>" +:+ name +:+ ": " +:+ amount +:+ " zł</b>";
                    "<br><br>Wpływy:"]
                   ++ map (λ line, "<br>" +:+ line) incoming
                   ++ ["<br><br>Wypływy:"]
                   ++ map (λ line, "<br>" +:+ line) outgoing))
      ∧ ∃ rest,
          node_hover_labels g !! v
          = Some (("<b>" +:+ name +:+ ": " +:+ amount +:+ " zł</b>")
                  +:+ rest).
Proof.
  intros (nodes & links & F)%script_inv Hv%(facts_dict_get F).
  destruct (facts_columns F) as (HS & HT & HV).
  assert (Hfind : find_original (old_to_new_index g) v = Some o)
    by (by rewrite (facts_find_original F)).
  split; [done|].
  destruct (facts_visible_label F _ _ Hv) as (name' & Hname' & Hlabel).
  destruct (facts_node_hover F _ _ Hv)
    as (name & es_in & es_out & amount & Hname & Hin & Hout & Hi & Ho
        & Hamount & Htext).
  assert (name' = name) as -> by congruence.
  exists name, es_in.*1, es_out.*1, amount. split_and!; try done.
  - rewrite HS, HT, HV. by apply incoming_flows_spec.
  - rewrite HS, HT, HV. by apply outgoing_flows_spec.
  - apply Forall2_fmap_r. eapply Forall2_impl; [exact Hin|].
    intros tr e (n & a & Hn & Ha & ->). by exists n, a.
  - apply Forall2_fmap_r. eapply Forall2_impl; [exact Hout|].
    intros tr e (n & a & Hn & Ha & ->). by exists n, a.
  - rewrite Htext. f_equal. apply hover_text_both.
    + by intros ?%fmap_nil_inv.
    + by intros ?%fmap_nil_inv.
  - rewrite Htext.
    destruct (hover_text_header
                ("<b>" +:+ name +:+ ": " +:+ amount +:+ " zł</b>")
                es_in.*1 es_out.*1) as [rest ->].
    by exists rest.
Qed.


(** *** Skipped links *)

Lemma resolve_None_unknown idx link :
  link_complete link = true →
  resolve idx link = None ↔ unknown_endpoint idx link.
Proof.
  unfold link_complete, resolve, unknown_endpoint.
  destruct (link_source_key link) as [s|]; [|done].
  destruct (link_target_key link) as [t|]; [|done].
  destruct (link_value_key link) as [v|]; [|done]. intros _. simpl.
  destruct (idx !! s), (idx !! t); naive_solver.
Qed.


(** [tr] is [link] with its endpoint ids replaced by their indices. *)
Lemma resolved_spec idx links :
  forallb link_complete links = true →
  Forall2 (λ link tr,
             link_source_key link ≫= (idx !!.) = Some tr.1.1
             ∧ link_target_key link ≫= (idx !!.) = Some tr.1.2
             ∧ link_value_key link = Some tr.2)
    (filter (λ link, ¬ unknown_endpoint idx link) links)
    (resolved idx links).
Proof.
  unfold resolved. induction links as [|link links IH]; [constructor|].
  intros [Hl Hc]%andb_prop. rewrite filter_cons. cbn [omap list_omap].
  pose proof (resolve_None_unknown idx link Hl) as Hr.
  destruct (resolve idx link) as [tr|] eqn:Etr.
  - rewrite decide_True by (intros ?%Hr; done). constructor; [|by apply IH].
    unfold resolve in Etr.
    destruct (link_source_key link) as [s|]; [|done].
    destruct (link_target_key link) as [t|]; [|done].
    destruct (link_value_key link) as [v|]; [|done]. simpl.
    destruct (idx !! s), (idx !! t); by simplify_eq.
  - rewrite decide_False by (intros H; apply H, Hr; done). by apply IH.
Qed.




Lemma not_warning_report hidden leftmost rightmost fig :
  Forall (λ ev, ¬ is_warning ev)
    (report_events hidden leftmost rightmost ++ final_events fig).
Proof.
  unfold report_events, final_events, output_file.
  repeat constructor; by intros (s & t & [=]).
Qed.



Lemma no_file_in_warnings ws file fig :
  Forall is_warning ws → HtmlFile file fig ∉ ws.
Proof.
  rewrite Forall_forall. intros Hws Hin.
  by destruct (Hws _ Hin) as (s & t & [=]).
Qed.


(** C7. When every node is hidden - every node index lacks an incoming or
    an outgoing resolved link - the script reaches its last line without
    an error, and all its outputs are empty: no visible node, no filtered
    link, no hover text, and the figure that is written has empty arrays. *)
Theorem all_hidden_empty_diagram data nodes links ids :
  nodes_key data = Some nodes → links_key data = Some links →
  well_formed data = true →
  mapM node_id_key nodes = Some ids →
  let trs := resolved (index_from 0 ids ∅) links in
  (∀ i, i < length ids → i ∈ hidden_of (length ids) trs.*1.*1 trs.*1.*2) →
  ∃ out g, script fmt_money data = (out, inr g)
    ∧ node_ids g = ids
    ∧ hidden_nodes g = hidden_of (length ids) trs.*1.*1 trs.*1.*2
    ∧ (∀ i, i < length (node_ids g) → i ∈ hidden_nodes g)
    ∧ visible_node_ids g = [] ∧ visible_node_labels g = []
    ∧ sources g = [] ∧ targets g = [] ∧ values g = []
    ∧ hover_labels g = [] ∧ node_hover_labels g = []
    ∧ fig g = Figure [] [] [] [] [] [] []
    ∧ HtmlFile output_file (Figure [] [] [] [] [] [] []) ∈ out.
Proof.
  intros Hn Hl (nodes' & links' & ids' & names & Hn' & Hl' & Hids & Hnames & Hc)
    %well_formed_inv Hids'. cbv zeta. intros Hall.
  rewrite Hn in Hn'. rewrite Hl in Hl'.
  injection Hn' as <-. injection Hl' as <-.
  assert (ids' = ids) as -> by congruence.
  destruct (script_cases _ _ _ _ _ Hn Hl Hids Hnames Hc)
    as [(out & g & Hrun & F)|[_ Hvisible]]; cycle 1.
  { destruct Hvisible. apply filter_nil_iff.
    intros i Hi%elem_of_seq Hh. apply Hh, Hall. lia. }
  exists out, g. split; [done|].
  pose proof (rf_ids _ _ _ _ _ _ F) as Hids2.
  assert (node_ids g = ids) as Hg_ids by congruence.
  assert (Hhid : hidden_nodes g
                 = hidden_of (length ids)
                     (resolved (index_from 0 ids ∅) links).*1.*1
                     (resolved (index_from 0 ids ∅) links).*1.*2).
  { rewrite (facts_hidden F), (rf_sources _ _ _ _ _ _ F),
      (rf_targets _ _ _ _ _ _ F), (rf_index _ _ _ _ _ _ F), Hg_ids.
    reflexivity. }
  assert (Hall' : ∀ i, i < length (node_ids g) → i ∈ hidden_nodes g).
  { intros i Hi. rewrite Hhid. apply Hall. by rewrite <-Hg_ids. }
  assert (HK : (old_to_new_index g).*1 = []).
  { rewrite (facts_keys F). apply filter_nil_iff.
    intros i Hi%elem_of_seq Hh. apply Hh, Hall'. lia. }
  destruct (facts_visible_length F) as [Hl1 Hl2].
  rewrite HK in Hl1, Hl2. apply nil_length_inv in Hl1, Hl2.
  destruct (facts_filtered F) as (Hf & HS & HT & HV).
  assert (filtered_of g = []) as Hnil.
  { eapply Forall2_nil_inv_l. erewrite <-(proj2 (filter_nil_iff _ _)); [done|].
    intros tr Htr [Hs _]. apply Hs, Hall'. by apply (facts_bound F). }
  rewrite Hnil in HS, HT, HV. cbn in HS, HT, HV.
  pose proof (rf_hover _ _ _ _ _ _ F) as Hh. fold (filtered_of g) in Hh.
  rewrite Hnil in Hh. apply Forall2_nil_inv_l in Hh.
  pose proof (rf_node_hover _ _ _ _ _ _ F) as Hnh. rewrite Hl1 in Hnh.
  apply Forall2_nil_inv_l in Hnh.
  destruct (rf_fig _ _ _ _ _ _ F) as (colors & Hcl & Hfig).
  rewrite Hl2 in Hcl. apply nil_length_inv in Hcl. subst colors.
  rewrite Hl2, Hnh, HS, HT, HV, Hh in Hfig.
  split_and!; try done.
  rewrite (rf_out _ _ _ _ _ _ F), Hfig. unfold final_events.
  rewrite !elem_of_app. right. right. left.
Qed.

(** C8. When the document lacks the [nodes] or the [links] collection, or
    a node lacks [id] or [name], or a link lacks [source], [target] or
    [value], the script ends in the loader with the [KeyError] of a
    required key; all it has printed by then are loader warnings for links
    before the malformed one: the classifier has not reported and nothing
    is written. *)
Theorem malformed_input_aborts data :
  well_formed data = false →
  ∃ out k, script fmt_money data = (out, inl (KeyError (KStr k)))
    ∧ k ∈ required_keys
    ∧ Forall is_warning out
    ∧ (∀ file fig, HtmlFile file fig ∉ out).
Proof.
  intros (out & k & Hrun & Hk & Hout)%script_malformed.
  exists out, k. split_and!; try done.
  intros file fig. by apply no_file_in_warnings.
Qed.

(** X15. A run that does not reach its last line has written no file, and
    it ended in one of two ways: in the loader, on a document that lacks a
    required key, with the [KeyError] of such a key and only warnings
    printed; or in the annotator, on a well-formed document, with the
    [OverflowError] of a value that cannot be formatted, after the warnings
    and the three lines of the report.  No subscript on a list or on
    [old_to_new_index] ever fails. *)
Theorem script_failure_kinds data out e :
  script fmt_money data = (out, inl e) →
  (∀ file fig, HtmlFile file fig ∉ out)
  ∧ ((∃ k, e = KeyError (KStr k) ∧ k ∈ required_keys
           ∧ well_formed data = false ∧ Forall is_warning out)
     ∨ (e = OverflowError ∧ well_formed data = true
        ∧ ∃ ws hidden leftmost rightmost,
            Forall is_warning ws
            ∧ out = ws ++ report_events hidden leftmost rightmost)).
Proof.
  intros Hrun. destruct (well_formed data) eqn:Hwf.
  - apply well_formed_inv in Hwf
      as (nodes & links & ids & names & Hn & Hl & Hids & Hnames & Hc).
    destruct (script_cases _ _ _ _ _ Hn Hl Hids Hnames Hc)
      as [(out' & g' & Hrun' & _)|[Hrun' _]]; rewrite Hrun in Hrun';
      [done|].
    injection Hrun' as -> ->. split.
    + intros file fig [Hin|Hin]%elem_of_app.
      * by eapply no_file_in_warnings, Hin; apply warnings_are_warnings.
      * unfold report_events in Hin. set_solver.
    + right. split_and!; try done.
      eexists _, _, _, _. split; [apply warnings_are_warnings|done].
  - apply script_malformed in Hwf as (out' & k & Hrun' & Hk & Hout).
    rewrite Hrun in Hrun'. injection Hrun' as -> ->. split.
    + intros file fig. by apply no_file_in_warnings.
    + left. by exists k.
Qed.


(** * Further properties of the script *)

(** ** The loader: ids, indices and skipped links *)

Lemma index_from_lookup_iff ids idx d id i :
  index_from idx ids d !! id = Some i ↔
  (∃ j, i = idx + j ∧ ids !! j = Some id
        ∧ ∀ j', j < j' → ids !! j' ≠ Some id)
  ∨ ((id ∉ ids) ∧ d !! id = Some i).
Proof.
  revert idx d. induction ids as [|x ids IH]; intros idx d.
  { simpl. split; [intros ?; right; split; [apply not_elem_of_nil|done]|].
    intros [(j & _ & ? & _)|[_ ?]]; done. }
  cbn [index_from]. rewrite IH. split.
  - intros [(j & -> & Hj & Hlast)|[Hnot Hd]].
    + left. exists (S j). split_and!; [lia|done|].
      intros [|j'] ?; [lia|]. simpl. apply Hlast. lia.
    + destruct (decide (x = id)) as [->|Hne].
      * rewrite lookup_insert_eq in Hd. injection Hd as <-.
        left. exists 0. split_and!; [lia|done|].
        intros [|j'] ? Hj'; [lia|]. simpl in Hj'.
        by apply list_elem_of_lookup_2 in Hj'.
      * rewrite lookup_insert_ne in Hd by done. right. split; [|done].
        rewrite not_elem_of_cons. by split.
  - intros [(j & -> & Hj & Hlast)|[Hnot Hd]].
    + destruct j as [|j].
      * simpl in Hj. injection Hj as ->. right. split.
        -- intros [j' Hj']%list_elem_of_lookup_1.
           by apply (Hlast (S j')); [lia|].
        -- rewrite lookup_insert_eq. f_equal. lia.
      * left. exists j. split_and!; [lia|done|].
        intros j' ?. apply (Hlast (S j')). lia.
    + apply not_elem_of_cons in Hnot as [Hne Hnot]. right. split; [done|].
      by rewrite lookup_insert_ne.
Qed.

Lemma resolved_in_range idx links tr :
  tr ∈ resolved idx links →
  (∃ s, idx !! s = Some tr.1.1) ∧ (∃ t, idx !! t = Some tr.1.2).
Proof.
  unfold resolved. rewrite list_elem_of_omap. intros (link & _ & Hr).
  unfold resolve in Hr.
  destruct (link_source_key link) as [s|]; [|done].
  destruct (link_target_key link) as [t|]; [|done].
  destruct (link_value_key link) as [v|]; [|done].
  destruct (idx !! s) as [i|] eqn:Hs; [|done].
  destruct (idx !! t) as [j|] eqn:Ht; [|done].
  injection Hr as <-. eauto.
Qed.

Lemma facts_hidden_iff {data nodes links out g}
    (F : run_facts fmt_money data nodes links out g) i :
  i ∈ hidden_nodes g ↔
  i < length (node_ids g) ∧ ((i ∉ all_targets g) ∨ (i ∉ all_sources g)).
Proof.
  rewrite (facts_hidden F). unfold range_set.
  rewrite elem_of_union, !elem_of_difference, !elem_of_list_to_set,
    elem_of_seq. naive_solver lia.
Qed.

Lemma facts_links_eq {data nodes links out g}
    (F : run_facts fmt_money data nodes links out g) links' :
  links_key data = Some links' → links' = links.
Proof. rewrite (rf_links _ _ _ _ _ _ F). by intros [= ->]. Qed.

(** X1. [node_id_to_index] maps an id to the position of its last
    occurrence in [node_ids], and to nothing else. *)
Theorem node_id_to_index_last_occurrence data out g id i :
  script fmt_money data = (out, inr g) →
  node_id_to_index g !! id = Some i ↔
  node_ids g !! i = Some id ∧ ∀ j, i < j → node_ids g !! j ≠ Some id.
Proof.
  intros (nodes & links & F)%script_inv.
  rewrite (rf_index _ _ _ _ _ _ F), index_from_lookup_iff.
  rewrite lookup_empty. split.
  - intros [(j & -> & ? & ?)|[_ ?]]; done.
  - intros [? ?]. left. by exists i.
Qed.

(** X2. A node whose id occurs again later in the node list is always
    hidden: no link can resolve to it. *)
Theorem shadowed_node_hidden data out g i j id :
  script fmt_money data = (out, inr g) →
  node_ids g !! i = Some id → node_ids g !! j = Some id → i < j →
  i ∈ hidden_nodes g.
Proof.
  intros (nodes & links & F)%script_inv Hi Hj Hlt.
  apply (facts_hidden_iff F). split; [by apply lookup_lt_Some in Hi|].
  left. destruct (facts_columns F) as (_ & -> & _).
  rewrite <-list_fmap_compose, list_elem_of_fmap.
  intros (tr & -> & Htr). unfold compose in *.
  rewrite (facts_links_of F) in Htr.
  apply resolved_in_range in Htr as [_ [t Ht]].
  rewrite (rf_index _ _ _ _ _ _ F), index_from_lookup_iff in Ht.
  destruct Ht as [(k & Hk & Hid & Hlast)|[_ Ht]];
    [|by rewrite lookup_empty in Ht].
  simpl in Hk. subst k. rewrite Hi in Hid. injection Hid as <-.
  by apply (Hlast j).
Qed.

(** X3. When a resolved link is read back through [node_ids], its indices
    give the ids of the link: the resolved links are, in order, the links
    with known endpoints, with the same endpoints and values. *)
Theorem resolved_links_round_trip data out g links :
  script fmt_money data = (out, inr g) →
  links_key data = Some links →
  Forall2 (λ link tr,
             node_ids g !! tr.1.1 = link_source_key link
             ∧ node_ids g !! tr.1.2 = link_target_key link
             ∧ Some tr.2 = link_value_key link)
    (filter (λ link, ¬ unknown_endpoint (node_id_to_index g) link) links)
    (links_of g).
Proof.
  intros (nodes & links' & F)%script_inv Heq. apply (facts_links_eq F) in Heq.
  subst links'.
  rewrite (facts_links_of F).
  eapply Forall2_impl; [apply resolved_spec, (rf_complete _ _ _ _ _ _ F)|].
  intros link tr (Hs & Ht & Hv). cbn beta in *.
  destruct (link_source_key link) as [s|]; [|done].
  destruct (link_target_key link) as [t|]; [|done]. simpl in Hs, Ht.
  rewrite (rf_index _ _ _ _ _ _ F), index_from_lookup_iff in Hs, Ht.
  destruct Hs as [(k & Hk & Hs & _)|[_ Hs]]; [|by rewrite lookup_empty in Hs].
  destruct Ht as [(k' & Hk' & Ht & _)|[_ Ht]]; [|by rewrite lookup_empty in Ht].
  simpl in Hk, Hk'. subst k k'. done.
Qed.

Lemma resolved_warnings_length idx links :
  forallb link_complete links = true →
  length (resolved idx links) + length (warnings idx links) = length links.
Proof.
  unfold resolved, warnings. induction links as [|link links IH]; [done|].
  intros [Hl Hc]%andb_prop. specialize (IH Hc).
  cbn [omap list_omap length]. unfold link_complete in Hl.
  destruct (resolve idx link) as [tr|] eqn:Hr,
    (warning_of idx link) as [ev|] eqn:Hw; cbn [length]; try lia;
    exfalso; unfold warning_of in Hw; rewrite Hr in Hw;
    destruct (link_source_key link), (link_target_key link); done.
Qed.

(** X4. Every link of a well-formed document is either resolved or
    reported: the three resolved lists have the same length, and together
    with the warnings, which are all printed first, they account for every
    link once. *)
Theorem every_link_resolved_or_warned data out g links :
  script fmt_money data = (out, inr g) →
  links_key data = Some links →
  length (all_sources g) = length (all_targets g)
  ∧ length (all_targets g) = length (all_values g)
  ∧ ∃ ws rest,
      out = ws ++ rest ∧ Forall is_warning ws
      ∧ Forall (λ ev, ¬ is_warning ev) rest
      ∧ length (all_sources g) + length ws = length links.
Proof.
  intros (nodes & links' & F)%script_inv Heq. apply (facts_links_eq F) in Heq.
  subst links'.
  destruct (facts_columns F) as (HS & HT & HV).
  split_and!; [by rewrite HS, HT, !length_fmap
              |by rewrite HT, HV, !length_fmap|].
  exists (warnings (node_id_to_index g) links),
    (report_events (hidden_nodes g) (leftmost_nodes g) (rightmost_nodes g)
     ++ final_events (fig g)).
  split_and!.
  - apply (rf_out _ _ _ _ _ _ F).
  - apply warnings_are_warnings.
  - apply not_warning_report.
  - rewrite HS, !length_fmap, (facts_links_of F).
    apply resolved_warnings_length, (rf_complete _ _ _ _ _ _ F).
Qed.


(** ** The loader: which key is reported *)

(** X5. The loader reads the keys in a fixed order: [nodes], the [id] of
    every node, the [name] of every node, [links]; the first one that is
    absent is the [KeyError] that ends the script, and nothing has been
    printed by then. *)
Theorem loader_key_order data :
  (nodes_key data = None →
   script fmt_money data = ([], inl (KeyError (KStr "nodes"))))
  ∧ (∀ nodes, nodes_key data = Some nodes →
       Exists (λ node, node_id_key node = None) nodes →
       script fmt_money data = ([], inl (KeyError (KStr "id"))))
  ∧ (∀ nodes, nodes_key data = Some nodes →
       Forall (λ node, is_Some (node_id_key node)) nodes →
       Exists (λ node, node_name_key node = None) nodes →
       script fmt_money data = ([], inl (KeyError (KStr "name"))))
  ∧ (∀ nodes, nodes_key data = Some nodes →
       forallb node_complete nodes = true → links_key data = None →
       script fmt_money data = ([], inl (KeyError (KStr "links")))).
Proof.
  unfold script. split_and!.
  - by intros ->.
  - intros nodes -> Hid%mapM_None_2.
    by rewrite getitem_Some, bind_ret_l, comprehension_getitem, Hid.
  - intros nodes -> [ids Hids]%mapM_is_Some_2 Hname%mapM_None_2.
    rewrite !getitem_Some, bind_ret_l, comprehension_getitem, Hids, bind_val.
    by rewrite bind_ret_l, comprehension_getitem, Hname.
  - intros nodes -> [[ids Hids] [names Hnames]]%node_complete_forallb ->.
    rewrite !getitem_Some, bind_ret_l, comprehension_getitem, Hids, bind_val.
    by rewrite bind_ret_l, comprehension_getitem, Hnames, bind_val.
Qed.

(** The loop of lines 22-36 over a concatenation is the loop over the first
    part followed by the loop over the second. *)
Lemma resolve_links_app idx pre rest acc :
  resolve_links idx (pre ++ rest) acc =
  bind (resolve_links idx pre acc) (resolve_links idx rest).
Proof.
  revert acc. induction pre as [|link pre IH]; intros acc.
  { cbn [app resolve_links]. by rewrite bind_ret_l. }
  cbn [app resolve_links].
  destruct (link_source_key link) as [s|]; [|done].
  destruct (link_target_key link) as [t|]; [|done].
  destruct (link_value_key link) as [v|]; [|done].
  rewrite !getitem_Some, !bind_ret_l.
  destruct (idx !! s) as [i|]; [destruct (idx !! t) as [j|]|].
  - destruct acc as [[a b] c]. apply IH.
  - rewrite IH. unfold print, emit, bind.
    by destruct (resolve_links idx pre acc) as [out [e|acc']];
      [|destruct (resolve_links idx rest acc')].
  - rewrite IH. unfold print, emit, bind.
    by destruct (resolve_links idx pre acc) as [out [e|acc']];
      [|destruct (resolve_links idx rest acc')].
Qed.

(** X6. When the nodes are complete and a link lacks a field, the script
    stops at the first such link with the [KeyError] of the first of
    [source], [target], [value] that it lacks, after the warnings for the
    links before it and nothing else. *)
Theorem first_incomplete_link data nodes pre bad post :
  nodes_key data = Some nodes → forallb node_complete nodes = true →
  links_key data = Some (pre ++ bad :: post) →
  forallb link_complete pre = true → link_complete bad = false →
  ∃ ids,
    mapM node_id_key nodes = Some ids
    ∧ script fmt_money data =
      (warnings (index_from 0 ids ∅) pre,
       inl (KeyError (KStr
              match link_source_key bad, link_target_key bad with
              | None, _ => "source"
              | Some _, None => "target"
              | Some _, Some _ => "value"
              end))).
Proof.
  intros Hn [[ids Hids] [names Hnames]]%node_complete_forallb Hl Hpre Hbad.
  exists ids. split; [done|]. unfold script.
  rewrite Hn, Hl, !getitem_Some, bind_ret_l, comprehension_getitem, Hids.
  rewrite bind_val, bind_ret_l, comprehension_getitem, Hnames, bind_val.
  rewrite bind_ret_l, resolve_links_app, resolve_links_complete by done.
  unfold link_complete in Hbad. cbn [resolve_links].
  destruct (link_source_key bad) as [s|];
    [destruct (link_target_key bad) as [t|];
     [destruct (link_value_key bad) as [v|]; [done|]|]|];
    unfold bind; simpl; by rewrite app_nil_r.
Qed.


(** ** The reducer and the report *)

(** X7. [visible_node_ids] and [visible_node_labels] list the ids and the
    names of the nodes that are not hidden, in the order of the input, and
    [old_to_new_index] numbers these nodes from 0 in that order. *)
Theorem visible_nodes_in_order data out g :
  script fmt_money data = (out, inr g) →
  Forall2 (λ o node_id, node_ids g !! o = Some node_id)
    (filter (λ o, o ∉ hidden_nodes g) (seq 0 (length (node_ids g))))
    (visible_node_ids g)
  ∧ Forall2 (λ o label, node_labels g !! o = Some label)
      (filter (λ o, o ∉ hidden_nodes g) (seq 0 (length (node_ids g))))
      (visible_node_labels g)
  ∧ old_to_new_index g
    = zip (filter (λ o, o ∉ hidden_nodes g) (seq 0 (length (node_ids g))))
          (seq 0 (length (visible_node_ids g))).
Proof.
  intros (nodes & links & F)%script_inv.
  pose proof (facts_labels_length F) as Hlen.
  rewrite <-(visible_keys _ _ _ Hlen).
  assert (Hk : Forall (λ p : nat * (string * string),
                  node_ids g !! p.1 = Some p.2.1
                  ∧ node_labels g !! p.1 = Some p.2.2)
            (kept (hidden_nodes g) 0 (zip (node_ids g) (node_labels g)))).
  { apply Forall_forall. intros [o [node_id label]] [k Hk]%list_elem_of_lookup_1.
    apply kept_lookup in Hk as (_ & _ & Hk). rewrite Nat.sub_0_r in Hk.
    by apply lookup_zip_with_Some in Hk as (? & ? & [= <- <-] & ? & ?). }
  split_and!.
  - rewrite (rf_visible_ids _ _ _ _ _ _ F), <-list_fmap_compose.
    apply Forall2_fmap, Forall_Forall2_diag.
    eapply Forall_impl; [exact Hk|]. by intros ? [? _].
  - rewrite (rf_visible_labels _ _ _ _ _ _ F), <-list_fmap_compose.
    apply Forall2_fmap, Forall_Forall2_diag.
    eapply Forall_impl; [exact Hk|]. by intros ? [_ ?].
  - rewrite (rf_old_to_new _ _ _ _ _ _ F), (rf_visible_ids _ _ _ _ _ _ F).
    by rewrite !length_fmap.
Qed.

(** X8. The report prints the sizes of the hidden, leftmost and rightmost
    sets after the warnings.  The nodes that are both leftmost and rightmost
    are the isolated ones, and each of them is counted in both sub-counts:
    hidden + isolated = leftmost + rightmost. *)
Theorem report_counts data out g :
  script fmt_money data = (out, inr g) →
  (∃ ws rest,
     Forall is_warning ws
     ∧ out = ws
         ++ [ Stdout ("Removing " +:+ pretty (size (hidden_nodes g))
                      +:+ " leaf nodes from diagram:");
              Stdout ("  Leftmost (sources): "
                      +:+ pretty (size (leftmost_nodes g)) +:+ " nodes");
              Stdout ("  Rightmost (sinks): "
                      +:+ pretty (size (rightmost_nodes g)) +:+ " nodes") ]
         ++ rest)
  ∧ (∀ i, i ∈ leftmost_nodes g ∩ rightmost_nodes g ↔
          i < length (node_ids g)
          ∧ incoming_of g i = [] ∧ outgoing_of g i = [])
  ∧ size (hidden_nodes g) + size (leftmost_nodes g ∩ rightmost_nodes g)
    = size (leftmost_nodes g) + size (rightmost_nodes g)
  ∧ size (hidden_nodes g) ≤ length (node_ids g).
Proof.
  intros (nodes & links & F)%script_inv.
  destruct (facts_columns F) as (HS & HT & _).
  split_and!.
  - exists (warnings (node_id_to_index g) links), (final_events (fig g)).
    split; [apply warnings_are_warnings|]. apply (rf_out _ _ _ _ _ _ F).
  - intros i. rewrite (incoming_of_nil g i HT), (outgoing_of_nil g i HS).
    rewrite (rf_leftmost _ _ _ _ _ _ F), (rf_rightmost _ _ _ _ _ _ F),
      (rf_has_incoming _ _ _ _ _ _ F), (rf_has_outgoing _ _ _ _ _ _ F).
    unfold range_set.
    rewrite elem_of_intersection, !elem_of_difference, !elem_of_list_to_set,
      elem_of_seq. naive_solver lia.
  - rewrite (rf_hidden _ _ _ _ _ _ F), size_union_alt.
    pose proof (size_difference_alt (rightmost_nodes g) (leftmost_nodes g))
      as Hd.
    assert (size (rightmost_nodes g ∩ leftmost_nodes g)
            ≤ size (rightmost_nodes g)) as Hle
      by (apply subseteq_size; set_solver).
    rewrite (comm_L (∩) (leftmost_nodes g)). lia.
  - transitivity (size (range_set (length (node_ids g)))).
    + apply subseteq_size. rewrite (facts_hidden F). set_solver.
    + unfold range_set. rewrite size_list_to_set by apply NoDup_seq.
      by rewrite length_seq.
Qed.


(** ** The figure *)

Lemma comprehension_getindex_inv {A B} (l : list B) (f : A → nat) xs out ys :
  comprehension (λ x, getindex l (f x)) xs = (out, inr ys) →
  Forall2 (λ x y, l !! f x = Some y) xs ys.
Proof.
  revert out ys. induction xs as [|x xs IH]; intros out ys.
  { intros [= _ <-]. constructor. }
  cbn [comprehension]. unfold getindex at 1.
  destruct (l !! f x) as [y|] eqn:Hy; [|done]. rewrite bind_ret_l.
  intros (out1 & ys' & out2 & Hxs & [= _ <-] & _)%bind_inr_inv.
  constructor; [done|by eapply IH].
Qed.

Lemma script_colors data out g :
  script fmt_money data = (out, inr g) →
  Forall2 (λ i c, base_colors !! (i mod length base_colors) = Some c)
    (seq 0 (length (visible_node_labels g))) (node_color (fig g)).
Proof.
  intros Hrun. unfold script in Hrun. cbv zeta in Hrun.
  repeat match type of Hrun with
         | bind _ _ = _ =>
             apply bind_inr_inv in Hrun as (? & ? & ? & ? & Hrun & ?)
         | match ?x with _ => _ end = _ => destruct x as [[? ?] ?]
         end.
  injection Hrun as _ <-. globals_simpl. cbn [node_color].
  match goal with
  | H : comprehension (λ i, getindex base_colors _) _ = _ |- _ =>
      by apply comprehension_getindex_inv in H
  end.
Qed.


(** X9. The figure gets one colour per visible node, the palette entry at
    the node's new index modulo the size of the palette: the palette
    subscript never fails and the colours repeat with period 45. *)
Theorem node_colors_cycle data out g :
  script fmt_money data = (out, inr g) →
  length (node_color (fig g)) = length (visible_node_labels g)
  ∧ (∀ k, k < length (visible_node_labels g) →
       node_color (fig g) !! k = base_colors !! (k mod 45))
  ∧ (∀ k, k + 45 < length (visible_node_labels g) →
       node_color (fig g) !! (k + 45) = node_color (fig g) !! k).
Proof.
  intros Hc%script_colors.
  assert (Hlen : length (node_color (fig g))
                 = length (visible_node_labels g)).
  { apply Forall2_length in Hc. by rewrite length_seq in Hc. }
  assert (Hk : ∀ k, k < length (visible_node_labels g) →
            node_color (fig g) !! k = base_colors !! (k mod 45)).
  { intros k Hk.
    assert (seq 0 (length (visible_node_labels g)) !! k = Some k) as Hs
      by (by apply lookup_seq).
    destruct (Forall2_lookup_l _ _ _ _ _ Hc Hs) as (c & -> & Hb).
    by rewrite <-Hb. }
  split_and!; [done..|].
  intros k Hlt. rewrite !Hk by lia. f_equal.
  rewrite <-(Nat.mul_1_l 45) at 1. by rewrite Nat.Div0.mod_add.
Qed.

(** X10. The run prints the warnings, then the three lines of the report,
    then writes the figure once to [budget_sankey.html] and prints two
    closing lines.  The figure holds the variables of the script, its node
    arrays have one length and its link arrays have one length. *)
Theorem figure_written_once data out g :
  script fmt_money data = (out, inr g) →
  (∃ ws,
     Forall is_warning ws
     ∧ out = ws
         ++ report_events (hidden_nodes g) (leftmost_nodes g)
              (rightmost_nodes g)
         ++ [ HtmlFile "budget_sankey.html" (fig g);
              Stdout "Sankey diagram saved to budget_sankey.html";
              Stdout "Open this file in your web browser to view the interactive diagram." ])
  ∧ node_label (fig g) = visible_node_labels g
  ∧ node_customdata (fig g) = node_hover_labels g
  ∧ link_source (fig g) = sources g ∧ link_target (fig g) = targets g
  ∧ link_value (fig g) = values g
  ∧ link_customdata (fig g) = hover_labels g
  ∧ length (node_color (fig g)) = length (node_label (fig g))
  ∧ length (node_customdata (fig g)) = length (node_label (fig g))
  ∧ length (link_target (fig g)) = length (link_source (fig g))
  ∧ length (link_value (fig g)) = length (link_source (fig g))
  ∧ length (link_customdata (fig g)) = length (link_source (fig g)).
Proof.
  intros (nodes & links & F)%script_inv.
  destruct (rf_fig _ _ _ _ _ _ F) as (colors & Hcl & Hfig).
  destruct (facts_filtered F) as (_ & HS & HT & HV).
  destruct (facts_visible_length F) as [Hl1 Hl2].
  pose proof (Forall2_length _ _ _ (rf_node_hover _ _ _ _ _ _ F)) as Hnh.
  pose proof (Forall2_length _ _ _ (rf_hover _ _ _ _ _ _ F)) as Hh.
  fold (filtered_of g) in Hh. rewrite length_seq in Hnh.
  split; [|rewrite Hfig; cbn [node_label node_color node_customdata
    link_source link_target link_value link_customdata]; split_and!;
    try done].
  - exists (warnings (node_id_to_index g) links).
    split; [apply warnings_are_warnings|]. apply (rf_out _ _ _ _ _ _ F).
  - congruence.
  - by rewrite HT, HS, !length_fmap.
  - by rewrite HV, HS, !length_fmap.
  - by rewrite <-Hh, HS, !length_fmap.
Qed.


(** ** The annotator and the reduced graph *)

(** X11. The summary of a visible node always has both itemised sections:
    such a node has at least one incoming and one outgoing link, so neither
    list is empty and neither heading is left out.  The summary is the
    header with the formatted total, then each heading with its lines. *)
Theorem visible_summary_has_both_sections data out g o v :
  script fmt_money data = (out, inr g) →
  dict_get (old_to_new_index g) o = Some v →
  ∃ name total amount incoming outgoing,
    fmt_money total = Some amount
    ∧ length incoming = length (incoming_of g o)
    ∧ length outgoing = length (outgoing_of g o)
    ∧ incoming ≠ [] ∧ outgoing ≠ []
    ∧ node_hover_labels g !! v
      = Some (String.concat ""
                (["<b>" +:+ name +:+ ": " +:+ amount +:+ " zł</b>";
                  "<br><br>Wpływy:"]
                 ++ map (λ line, "<br>" +:+ line) incoming
                 ++ ["<br><br>Wypływy:"]
                 ++ map (λ line, "<br>" +:+ line) outgoing)).
Proof.
  intros (nodes & links & F)%script_inv Hv%(facts_dict_get F).
  destruct (facts_node_hover F _ _ Hv)
    as (name & es_in & es_out & amount & _ & Hin & Hout & Hi & Ho
        & Hamount & Htext).
  apply Forall2_length in Hin as Hlin. apply Forall2_length in Hout as Hlout.
  exists name, (Z.max (total_value (incoming_of g o))
                  (total_value (outgoing_of g o))), amount,
    es_in.*1, es_out.*1.
  rewrite !length_fmap.
  assert (es_in.*1 ≠ []) as Hi' by (by intros ?%fmap_nil_inv).
  assert (es_out.*1 ≠ []) as Ho' by (by intros ?%fmap_nil_inv).
  split_and!; try done.
  rewrite Htext. f_equal. by apply hover_text_both.
Qed.

Lemma filter_all {A} (P : A → Prop) `{!∀ x, Decision (P x)} (l : list A) :
  (∀ x, x ∈ l → P x) → filter P l = l.
Proof.
  induction l as [|x l IH]; intros Hall; [done|].
  rewrite filter_cons_True by (apply Hall; left).
  f_equal. apply IH. intros y Hy. apply Hall. by right.
Qed.

(** X12. When no node is hidden, as in a graph all of whose nodes lie on
    cycles, the reduction changes nothing: the visible nodes are all the
    nodes, every index is mapped to itself and the filtered links are the
    resolved links. *)
Theorem nothing_hidden_identity data out g :
  script fmt_money data = (out, inr g) →
  hidden_nodes g = ∅ →
  visible_node_ids g = node_ids g
  ∧ visible_node_labels g = node_labels g
  ∧ (∀ o, o < length (node_ids g) →
          dict_get (old_to_new_index g) o = Some o)
  ∧ sources g = all_sources g ∧ targets g = all_targets g
  ∧ values g = all_values g.
Proof.
  intros (nodes & links & F)%script_inv Hh.
  pose proof (facts_labels_length F) as Hlen.
  assert (Hkept : kept (hidden_nodes g) 0 (zip (node_ids g) (node_labels g))
                  = zip (seq 0 (length (zip (node_ids g) (node_labels g))))
                        (zip (node_ids g) (node_labels g))).
  { unfold kept. apply filter_all. intros p _. rewrite Hh. set_solver. }
  assert (HK : (old_to_new_index g).*1 = seq 0 (length (node_ids g))).
  { rewrite (facts_keys F). apply filter_all. intros o _. rewrite Hh.
    set_solver. }
  assert (Hid : ∀ o v, dict_get (old_to_new_index g) o = Some v → v = o).
  { intros o v Hv%(facts_dict_get F). rewrite HK in Hv.
    by apply lookup_seq in Hv as [-> _]. }
  split_and!.
  - rewrite (rf_visible_ids _ _ _ _ _ _ F), Hkept.
    rewrite snd_zip by (by rewrite length_seq).
    apply fst_zip. lia.
  - rewrite (rf_visible_labels _ _ _ _ _ _ F), Hkept.
    rewrite snd_zip by (by rewrite length_seq).
    apply snd_zip. lia.
  - intros o Ho. apply (facts_dict_get F). rewrite HK.
    by apply lookup_seq.
  - destruct (facts_filtered F) as (Hf & -> & _ & _).
    destruct (facts_columns F) as (-> & _ & _). do 2 f_equal.
    symmetry. apply list_eq_Forall2.
    rewrite filter_all in Hf by (intros tr _; split; rewrite Hh; set_solver).
    eapply Forall2_impl; [exact Hf|].
    intros [[s t] x] [[s' t'] x'] (Hs%Hid & Ht%Hid & Hx). cbn in *.
    congruence.
  - destruct (facts_filtered F) as (Hf & _ & -> & _).
    destruct (facts_columns F) as (_ & -> & _). do 2 f_equal.
    symmetry. apply list_eq_Forall2.
    rewrite filter_all in Hf by (intros tr _; split; rewrite Hh; set_solver).
    eapply Forall2_impl; [exact Hf|].
    intros [[s t] x] [[s' t'] x'] (Hs%Hid & Ht%Hid & Hx). cbn in *.
    congruence.
  - destruct (facts_filtered F) as (Hf & _ & _ & ->).
    destruct (facts_columns F) as (_ & _ & ->). f_equal.
    symmetry. apply list_eq_Forall2.
    rewrite filter_all in Hf by (intros tr _; split; rewrite Hh; set_solver).
    eapply Forall2_impl; [exact Hf|].
    intros [[s t] x] [[s' t'] x'] (Hs%Hid & Ht%Hid & Hx). cbn in *.
    congruence.
Qed.


(** X13. When no link is resolved - the document has no links, or every
    link names an unknown node - every node is hidden, together leftmost
    and rightmost, and the diagram has neither nodes nor links. *)
Theorem no_resolved_links_all_hidden data out g :
  script fmt_money data = (out, inr g) →
  all_sources g = [] →
  hidden_nodes g = range_set (length (node_ids g))
  ∧ leftmost_nodes g = rightmost_nodes g
  ∧ size (hidden_nodes g) = length (node_ids g)
  ∧ visible_node_ids g = [] ∧ visible_node_labels g = []
  ∧ old_to_new_index g = []
  ∧ sources g = [] ∧ targets g = [] ∧ values g = []
  ∧ hover_labels g = [] ∧ node_hover_labels g = [].
Proof.
  intros (nodes & links & F)%script_inv Hs.
  destruct (facts_columns F) as (HS & HT & HV).
  assert (Hl : links_of g = []).
  { rewrite HS in Hs. apply fmap_nil_inv in Hs. by apply fmap_nil_inv in Hs. }
  assert (Ht : all_targets g = []) by (by rewrite HT, Hl).
  assert (Hh : hidden_nodes g = range_set (length (node_ids g))).
  { apply set_eq. intros i. rewrite (facts_hidden_iff F), Hs, Ht.
    unfold range_set. rewrite elem_of_list_to_set, elem_of_seq.
    split; [intros [? _]; lia|]. intros ?. split; [lia|]. left.
    apply not_elem_of_nil. }
  assert (HK : (old_to_new_index g).*1 = []).
  { rewrite (facts_keys F). apply filter_nil_iff.
    intros o Hin Ho. apply Ho. rewrite Hh. unfold range_set.
    by apply elem_of_list_to_set. }
  destruct (facts_visible_length F) as [Hl1 Hl2]. rewrite HK in Hl1, Hl2.
  destruct (facts_filtered F) as (Hf & HS' & HT' & HV').
  rewrite Hl in Hf. apply Forall2_nil_inv_l in Hf.
  rewrite HS', HT', HV', Hf.
  pose proof (Forall2_length _ _ _ (rf_node_hover _ _ _ _ _ _ F)) as Hln.
  rewrite length_seq, (nil_length_inv _ Hl1) in Hln.
  split_and!; try done.
  - rewrite (rf_leftmost _ _ _ _ _ _ F), (rf_rightmost _ _ _ _ _ _ F),
      (rf_has_incoming _ _ _ _ _ _ F), (rf_has_outgoing _ _ _ _ _ _ F).
    by rewrite Hs, Ht.
  - rewrite Hh. unfold range_set.
    rewrite size_list_to_set by apply NoDup_seq. by rewrite length_seq.
  - by apply nil_length_inv.
  - by apply nil_length_inv.
  - by apply fmap_nil_inv in HK.
  - pose proof (rf_hover _ _ _ _ _ _ F) as Hh'.
    fold (filtered_of g) in Hh'. rewrite Hf in Hh'.
    by apply Forall2_nil_inv_l in Hh'.
  - symmetry in Hln. by apply nil_length_inv.
Qed.

Lemma total_value_cons tr trs :
  total_value (tr :: trs) = (tr.2 + total_value trs)%Z.
Proof. done. Qed.

Lemma total_value_filter_filter (P Q : nat * nat * Z → Prop)
    `{!∀ tr, Decision (P tr)} `{!∀ tr, Decision (Q tr)}
    (trs : list (nat * nat * Z)) :
  Forall (λ tr, (0 ≤ tr.2)%Z) trs →
  (total_value (filter Q (filter P trs)) ≤ total_value (filter Q trs))%Z.
Proof.
  induction 1 as [|tr trs Htr _ IH]; [done|].
  destruct (decide (P tr)), (decide (Q tr));
    rewrite ?(filter_cons_True P), ?(filter_cons_False P),
      ?(filter_cons_True Q), ?(filter_cons_False Q) by done;
    rewrite ?total_value_cons; lia.
Qed.

Lemma total_value_related (Q Q' : nat * nat * Z → Prop)
    `{!∀ tr, Decision (Q tr)} `{!∀ tr, Decision (Q' tr)}
    (trs trs' : list (nat * nat * Z)) :
  Forall2 (λ tr tr', (Q tr ↔ Q' tr') ∧ tr'.2 = tr.2) trs trs' →
  total_value (filter Q' trs') = total_value (filter Q trs).
Proof.
  induction 1 as [|tr tr' trs trs' [HQ Hv] _ IH]; [done|].
  destruct (decide (Q tr)) as [Hq|Hq].
  - rewrite (filter_cons_True Q), (filter_cons_True Q') by tauto.
    by rewrite !total_value_cons, IH, Hv.
  - rewrite (filter_cons_False Q), (filter_cons_False Q') by tauto. done.
Qed.

(** X14. When no resolved link has a negative value, the links drawn into
    a visible node sum to at most the total of all its resolved incoming
    links, and likewise on the outgoing side: the filtered links never
    carry more than the totals the summaries are computed from. *)
Theorem drawn_flow_within_total data out g o v :
  script fmt_money data = (out, inr g) →
  Forall (λ x, (0 ≤ x)%Z) (all_values g) →
  dict_get (old_to_new_index g) o = Some v →
  (total_value (filter (λ tr, tr.1.2 = v) (filtered_of g))
   ≤ total_value (incoming_of g o))%Z
  ∧ (total_value (filter (λ tr, tr.1.1 = v) (filtered_of g))
     ≤ total_value (outgoing_of g o))%Z.
Proof.
  intros (nodes & links & F)%script_inv Hpos Hv.
  destruct (facts_columns F) as (_ & _ & HV).
  assert (Forall (λ tr, (0 ≤ tr.2)%Z) (links_of g)) as Hpos'.
  { rewrite HV in Hpos. by apply (proj1 (Forall_fmap _ _ _)) in Hpos. }
  destruct (facts_filtered F) as (Hf & _).
  assert (Hinj : ∀ o', dict_get (old_to_new_index g) o' = Some v → o' = o).
  { intros o' Hv'. apply (facts_dict_get F) in Hv, Hv'. congruence. }
  split.
  - rewrite (total_value_related (λ tr, tr.1.2 = o) (λ tr, tr.1.2 = v)
               (filter (both_visible (hidden_nodes g)) (links_of g))).
    + by apply total_value_filter_filter.
    + eapply Forall2_impl; [exact Hf|].
      intros tr tr' (_ & Ht & Hx). split; [|done]. split.
      * intros <-. congruence.
      * intros <-. by apply Hinj.
  - rewrite (total_value_related (λ tr, tr.1.1 = o) (λ tr, tr.1.1 = v)
               (filter (both_visible (hidden_nodes g)) (links_of g))).
    + by apply total_value_filter_filter.
    + eapply Forall2_impl; [exact Hf|].
      intros tr tr' (Hs & _ & Hx). split; [|done]. split.
      * intros <-. congruence.
      * intros <-. by apply Hinj.
Qed.


(** X16. A node with a resolved link to itself is never hidden, and that
    link is drawn, from and to the new index of the node and with its
    value. *)
Theorem self_loop_stays data out g i x :
  script fmt_money data = (out, inr g) →
  (i, i, x) ∈ links_of g →
  (i ∉ hidden_nodes g)
  ∧ ∃ v, dict_get (old_to_new_index g) i = Some v
         ∧ (v, v, x) ∈ filtered_of g.
Proof.
  intros (nodes & links & F)%script_inv Hin.
  destruct (facts_columns F) as (HS & HT & _).
  assert (i ∉ hidden_nodes g) as Hvis.
  { rewrite (facts_hidden_iff F), HS, HT. intros [_ [Hn|Hn]]; apply Hn.
    - apply (list_elem_of_fmap_2 snd (fmap fst (links_of g)) (i, i)).
      by apply (list_elem_of_fmap_2 fst (links_of g) (i, i, x)).
    - apply (list_elem_of_fmap_2 fst (fmap fst (links_of g)) (i, i)).
      by apply (list_elem_of_fmap_2 fst (links_of g) (i, i, x)). }
  split; [done|].
  destruct (facts_filtered F) as (Hf & _).
  assert ((i, i, x) ∈ filter (both_visible (hidden_nodes g)) (links_of g))
    as [k Hk]%list_elem_of_lookup_1.
  { apply list_elem_of_filter. by split. }
  destruct (Forall2_lookup_l _ _ _ _ _ Hf Hk)
    as ([[s t] y] & Hk' & Hs & Ht & Hy). cbn in Hs, Ht, Hy.
  exists s. split; [done|].
  assert (t = s) as -> by congruence. subst y.
  by eapply list_elem_of_lookup_2.
Qed.

End Correctness.

(** * The scenarios of the specification *)

Ltac run_script fmt doc :=
  let r := eval vm_compute in (script fmt doc) in
  match r with
  | (?out, inr ?g) => exists out, g
  end.

(** Scenario A: only B stays, no link stays, and the summary of B shows
    both flows and the total 10. *)
Example scenario_A_output :
  fst (script format_2f scenario_A) =
  [ Stdout "Removing 2 leaf nodes from diagram:";
    Stdout "  Leftmost (sources): 1 nodes";
    Stdout "  Rightmost (sinks): 1 nodes";
    HtmlFile "budget_sankey.html"
      (Figure ["B"] ["#1f77b4"]
         ["<b>B: 10.00 zł</b><br><br>Wpływy:<br>  • A: 10.00 zł<br><br>Wypływy:<br>  • C: 5.00 zł"]
         [] [] [] []);
    Stdout "Sankey diagram saved to budget_sankey.html";
    Stdout "Open this file in your web browser to view the interactive diagram." ].
Proof. vm_compute. reflexivity. Qed.

(** Scenario B: only B stays and no link stays. *)
Example scenario_B_output :
  ∃ out g, script format_2f scenario_B = (out, inr g)
    ∧ visible_node_labels g = ["B"] ∧ filtered_of g = []
    ∧ hidden_nodes g = list_to_set [0; 2; 3].
Proof.
  run_script format_2f scenario_B.
  split_and!; vm_compute; reflexivity.
Qed.

(** Scenario C: A and D are hidden, B and C stay, and the link B→C is
    reindexed to 0→1. *)
Example scenario_C_output :
  ∃ out g, script format_2f scenario_C = (out, inr g)
    ∧ visible_node_labels g = ["B"; "C"] ∧ filtered_of g = [(0, 1, 7%Z)]
    ∧ hidden_nodes g = list_to_set [0; 3]
    ∧ hover_labels g = ["Z: B<br>Do: C<br>Kwota: 7.00 zł"].
Proof.
  run_script format_2f scenario_C.
  split_and!; vm_compute; reflexivity.
Qed.

(** Scenario D: the link from the unknown id is dropped with one warning
    and the rest is as in scenario C. *)
Example scenario_D_output :
  ∃ out g out' g', script format_2f scenario_D = (out, inr g)
    ∧ script format_2f scenario_C = (out', inr g')
    ∧ out = Stdout "Warning: Skipping link x -> c (missing node)" :: out'
    ∧ g = g'.
Proof.
  run_script format_2f scenario_D. run_script format_2f scenario_C.
  split_and!; vm_compute; reflexivity.
Qed.

(** Scenario E: both nodes are hidden and the diagram is empty. *)
Example scenario_E_output :
  fst (script format_2f scenario_E) =
  [ Stdout "Removing 2 leaf nodes from diagram:";
    Stdout "  Leftmost (sources): 1 nodes";
    Stdout "  Rightmost (sinks): 1 nodes";
    HtmlFile "budget_sankey.html" (Figure [] [] [] [] [] [] []);
    Stdout "Sankey diagram saved to budget_sankey.html";
    Stdout "Open this file in your web browser to view the interactive diagram." ].
Proof. vm_compute. reflexivity. Qed.

(** The overflow scenario: the warning and the report are printed, then
    formatting the value of the drawn link raises, and nothing is
    written. *)
Example scenario_overflow_output :
  script format_2f scenario_overflow =
  ([ Stdout "Warning: Skipping link x -> c (missing node)";
     Stdout "Removing 2 leaf nodes from diagram:";
     Stdout "  Leftmost (sources): 1 nodes";
     Stdout "  Rightmost (sinks): 1 nodes" ],
   inl OverflowError).
Proof. vm_compute. reflexivity. Qed.

(** [format_2f] on integers around the limits of a double. *)
Example format_2f_values :
  format_2f 1234567 = Some "1,234,567.00"
  ∧ format_2f (-1000) = Some "-1,000.00"
  ∧ format_2f (2 ^ 53 + 1) = Some "9,007,199,254,740,992.00"
  ∧ format_2f (2 ^ 53 + 3) = Some "9,007,199,254,740,996.00"
  ∧ is_Some (format_2f (2 ^ 1024 - 2 ^ 970 - 1))
  ∧ format_2f (2 ^ 1024 - 2 ^ 970) = None
  ∧ format_2f (10 ^ 309) = None.
Proof. vm_compute. repeat split; eauto. Qed.

(** The malformed scenario: one warning, then the [KeyError]. *)
Example scenario_malformed_output :
  script format_2f scenario_malformed =
  ([Stdout "Warning: Skipping link x -> b (missing node)"],
   inl (KeyError (KStr "value"))).
Proof. vm_compute. reflexivity. Qed.

(** * The claims on the scenarios *)


Lemma node_totals_witness :
  ∃ out g, script format_2f scenario_D = (out, inr g)
    ∧ dict_get (old_to_new_index g) 1 = Some 0
    ∧ find_original (old_to_new_index g) 0 = Some 1.
Proof.
  run_script format_2f scenario_D.
  split; [vm_compute; reflexivity|]. split; [vm_compute; reflexivity|].
  eapply (node_totals format_2f scenario_D);
    vm_compute; reflexivity.
Defined.


Lemma filtered_indices_in_range_witness :
  (∃ out g, script format_2f scenario_D = (out, inr g)
     ∧ Forall (λ i, i < length (visible_node_labels g)) (sources g)
     ∧ Forall (λ i, i < length (visible_node_labels g)) (targets g)
     ∧ (∀ tr, tr ∈ filtered_of g →
          is_Some (visible_node_labels g !! tr.1.1)
          ∧ is_Some (visible_node_labels g !! tr.1.2)))
  ∧ (∃ out e, script format_2f scenario_overflow = (out, inl e)
       ∧ e ≠ IndexError ∧ ∀ i, e ≠ KeyError (KInt i)).
Proof.
  split.
  - run_script format_2f scenario_D.
    split; [vm_compute; reflexivity|].
    refine (filtered_indices_in_range format_2f scenario_D _ (inr _) _).
    vm_compute; reflexivity.
  - eexists _, OverflowError. split; [vm_compute; reflexivity|].
    refine (filtered_indices_in_range format_2f scenario_overflow _
              (inl _) _).
    vm_compute; reflexivity.
Defined.



Lemma all_hidden_empty_diagram_witness :
  ∃ out g, script format_2f scenario_E = (out, inr g)
    ∧ (∀ i, i < length (node_ids g) → i ∈ hidden_nodes g)
    ∧ visible_node_ids g = [] ∧ sources g = []
    ∧ fig g = Figure [] [] [] [] [] [] [].
Proof.
  assert (Hall : ∀ i, i < length ["a"; "b"] →
            i ∈ hidden_of (length ["a"; "b"])
                  (resolved (index_from 0 ["a"; "b"] ∅)
                     [lk "a" "b" 5]).*1.*1
                  (resolved (index_from 0 ["a"; "b"] ∅)
                     [lk "a" "b" 5]).*1.*2).
  { intros [|[|i]] Hi; [vm_compute; reflexivity..|]. simpl in Hi. lia. }
  destruct (all_hidden_empty_diagram format_2f scenario_E
              [nd "a" "A"; nd "b" "B"] [lk "a" "b" 5] ["a"; "b"]
              eq_refl eq_refl eq_refl eq_refl Hall)
    as (out & g & Hrun & _ & _ & Hhid & Hids & _ & Hsrc & _ & _ & _ & _
        & Hfig & _).
  exists out, g. split_and!; done.
Defined.

Lemma malformed_input_aborts_witness :
  ∃ out k,
    script format_2f scenario_malformed = (out, inl (KeyError (KStr k)))
    ∧ k ∈ required_keys
    ∧ Forall is_warning out
    ∧ (∀ file fig, HtmlFile file fig ∉ out).
Proof.
  apply (malformed_input_aborts format_2f scenario_malformed).
  reflexivity.
Defined.

(** The malformed scenario lacks a required field, yet its run has
    printed a line before it aborts: the loader, the first stage, has
    run.  So it is not the case that a run on a malformed document
    aborts before anything is printed. *)
Lemma malformed_input_aborts_counterexample :
  well_formed scenario_malformed = false
  ∧ script format_2f scenario_malformed
    = ([Stdout "Warning: Skipping link x -> b (missing node)"],
       inl (KeyError (KStr "value")))
  ∧ ¬ (∀ data, well_formed data = false →
               ∃ e, script format_2f data = ([], inl e)).
Proof.
  split; [reflexivity|]. split; [vm_compute; reflexivity|].
  intros Hall. destruct (Hall scenario_malformed eq_refl) as [e He].
  vm_compute in He. discriminate He.
Qed.


Lemma old_to_new_index_bijection_witness :
  ∃ out g, script format_2f scenario_D = (out, inr g)
    ∧ (∀ o, is_Some (dict_get (old_to_new_index g) o) ↔
            o < length (node_ids g) ∧ o ∉ hidden_nodes g).
Proof.
  run_script format_2f scenario_D.
  split; [vm_compute; reflexivity|].
  eapply (old_to_new_index_bijection format_2f scenario_D).
  vm_compute; reflexivity.
Defined.

(** * Further properties on the scenarios *)

Lemma script_failure_kinds_witness :
  ∃ out, script format_2f scenario_overflow = (out, inl OverflowError)
    ∧ (∀ file fig, HtmlFile file fig ∉ out)
    ∧ ((∃ k, OverflowError = KeyError (KStr k) ∧ k ∈ required_keys
             ∧ well_formed scenario_overflow = false
             ∧ Forall is_warning out)
       ∨ (OverflowError = OverflowError
          ∧ well_formed scenario_overflow = true
          ∧ ∃ ws hidden leftmost rightmost,
              Forall is_warning ws
              ∧ out = ws ++ report_events hidden leftmost rightmost)).
Proof.
  eexists. split; [vm_compute; reflexivity|].
  eapply (script_failure_kinds format_2f scenario_overflow).
  vm_compute; reflexivity.
Defined.

Lemma node_id_to_index_last_occurrence_witness :
  ∃ out g, script format_2f scenario_duplicate = (out, inr g)
    ∧ (node_id_to_index g !! "a" = Some 2 ↔
       node_ids g !! 2 = Some "a"
       ∧ ∀ j, 2 < j → node_ids g !! j ≠ Some "a").
Proof.
  run_script format_2f scenario_duplicate.
  split; [vm_compute; reflexivity|].
  eapply (node_id_to_index_last_occurrence format_2f scenario_duplicate).
  vm_compute; reflexivity.
Defined.

Lemma shadowed_node_hidden_witness :
  ∃ out g, script format_2f scenario_duplicate = (out, inr g)
    ∧ 0 ∈ hidden_nodes g.
Proof.
  run_script format_2f scenario_duplicate.
  split; [vm_compute; reflexivity|].
  eapply (shadowed_node_hidden format_2f scenario_duplicate _ _ 0 2 "a");
    [vm_compute; reflexivity | reflexivity | reflexivity | lia].
Defined.

Lemma resolved_links_round_trip_witness :
  ∃ out g, script format_2f scenario_D = (out, inr g)
    ∧ Forall2 (λ link tr,
                 node_ids g !! tr.1.1 = link_source_key link
                 ∧ node_ids g !! tr.1.2 = link_target_key link
                 ∧ Some tr.2 = link_value_key link)
        (filter (λ link, ¬ unknown_endpoint (node_id_to_index g) link)
           [lk "a" "b" 10; lk "b" "c" 7; lk "x" "c" 7; lk "c" "d" 7])
        (links_of g).
Proof.
  run_script format_2f scenario_D.
  split; [vm_compute; reflexivity|].
  eapply (resolved_links_round_trip format_2f scenario_D);
    [vm_compute; reflexivity | reflexivity].
Defined.

Lemma every_link_resolved_or_warned_witness :
  ∃ out g, script format_2f scenario_D = (out, inr g)
    ∧ length (all_sources g) = length (all_targets g)
    ∧ length (all_targets g) = length (all_values g)
    ∧ ∃ ws rest,
        out = ws ++ rest ∧ Forall is_warning ws
        ∧ Forall (λ ev, ¬ is_warning ev) rest
        ∧ length (all_sources g) + length ws = 4.
Proof.
  run_script format_2f scenario_D.
  split; [vm_compute; reflexivity|].
  eapply (every_link_resolved_or_warned format_2f scenario_D _ _
            [lk "a" "b" 10; lk "b" "c" 7; lk "x" "c" 7; lk "c" "d" 7]);
    [vm_compute; reflexivity | reflexivity].
Defined.

Lemma loader_key_order_witness :
  script format_2f (Document None (Some []))
  = ([], inl (KeyError (KStr "nodes")))
  ∧ script format_2f
      (Document (Some [nd "a" "A"; NodeObj None None]) (Some []))
    = ([], inl (KeyError (KStr "id")))
  ∧ script format_2f
      (Document (Some [NodeObj (Some "a") None; nd "b" "B"]) None)
    = ([], inl (KeyError (KStr "name")))
  ∧ script format_2f (Document (Some [nd "a" "A"]) None)
    = ([], inl (KeyError (KStr "links"))).
Proof.
  split_and!.
  - by apply (loader_key_order format_2f (Document None (Some []))).
  - apply (loader_key_order format_2f
             (Document (Some [nd "a" "A"; NodeObj None None]) (Some []))
             ) with (nodes := [nd "a" "A"; NodeObj None None]);
      [reflexivity|]. right. left. reflexivity.
  - apply (loader_key_order format_2f
             (Document (Some [NodeObj (Some "a") None; nd "b" "B"]) None)
             ) with (nodes := [NodeObj (Some "a") None; nd "b" "B"]);
      [reflexivity| |].
    + repeat constructor; by eexists.
    + left. reflexivity.
  - apply (loader_key_order format_2f (Document (Some [nd "a" "A"]) None)
             ) with (nodes := [nd "a" "A"]); reflexivity.
Defined.

Lemma first_incomplete_link_witness :
  ∃ ids,
    mapM node_id_key [nd "a" "A"; nd "b" "B"] = Some ids
    ∧ script format_2f scenario_malformed =
      (warnings (index_from 0 ids ∅) [lk "x" "b" 1],
       inl (KeyError (KStr "value"))).
Proof.
  apply (first_incomplete_link format_2f scenario_malformed
           [nd "a" "A"; nd "b" "B"] [lk "x" "b" 1]
           (LinkObj (Some "a") (Some "b") None) []); reflexivity.
Defined.

Lemma visible_nodes_in_order_witness :
  ∃ out g, script format_2f scenario_D = (out, inr g)
    ∧ Forall2 (λ o node_id, node_ids g !! o = Some node_id)
        (filter (λ o, o ∉ hidden_nodes g) (seq 0 (length (node_ids g))))
        (visible_node_ids g)
    ∧ Forall2 (λ o label, node_labels g !! o = Some label)
        (filter (λ o, o ∉ hidden_nodes g) (seq 0 (length (node_ids g))))
        (visible_node_labels g)
    ∧ old_to_new_index g
      = zip (filter (λ o, o ∉ hidden_nodes g)
               (seq 0 (length (node_ids g))))
            (seq 0 (length (visible_node_ids g))).
Proof.
  run_script format_2f scenario_D.
  split; [vm_compute; reflexivity|].
  eapply (visible_nodes_in_order format_2f scenario_D).
  vm_compute; reflexivity.
Defined.

Lemma report_counts_witness :
  ∃ out g, script format_2f scenario_D = (out, inr g)
    ∧ (∃ ws rest,
         Forall is_warning ws
         ∧ out = ws
             ++ [ Stdout ("Removing " +:+ pretty (size (hidden_nodes g))
                          +:+ " leaf nodes from diagram:");
                  Stdout ("  Leftmost (sources): "
                          +:+ pretty (size (leftmost_nodes g)) +:+ " nodes");
                  Stdout ("  Rightmost (sinks): "
                          +:+ pretty (size (rightmost_nodes g))
                          +:+ " nodes") ]
             ++ rest)
    ∧ (∀ i, i ∈ leftmost_nodes g ∩ rightmost_nodes g ↔
            i < length (node_ids g)
            ∧ incoming_of g i = [] ∧ outgoing_of g i = [])
    ∧ size (hidden_nodes g) + size (leftmost_nodes g ∩ rightmost_nodes g)
      = size (leftmost_nodes g) + size (rightmost_nodes g)
    ∧ size (hidden_nodes g) ≤ length (node_ids g).
Proof.
  run_script format_2f scenario_D.
  split; [vm_compute; reflexivity|].
  eapply (report_counts format_2f scenario_D).
  vm_compute; reflexivity.
Defined.

Lemma node_colors_cycle_witness :
  ∃ out g, script format_2f (scenario_ring 50) = (out, inr g)
    ∧ length (visible_node_labels g) = 50
    ∧ length (node_color (fig g)) = length (visible_node_labels g)
    ∧ (∀ k, k < length (visible_node_labels g) →
         node_color (fig g) !! k = base_colors !! (k mod 45))
    ∧ (∀ k, k + 45 < length (visible_node_labels g) →
         node_color (fig g) !! (k + 45) = node_color (fig g) !! k).
Proof.
  run_script format_2f (scenario_ring 50).
  split; [vm_compute; reflexivity|]. split; [vm_compute; reflexivity|].
  eapply (node_colors_cycle format_2f (scenario_ring 50)).
  vm_compute; reflexivity.
Defined.

Lemma figure_written_once_witness :
  ∃ out g, script format_2f scenario_D = (out, inr g)
    ∧ (∃ ws,
         Forall is_warning ws
         ∧ out = ws
             ++ report_events (hidden_nodes g) (leftmost_nodes g)
                  (rightmost_nodes g)
             ++ [ HtmlFile "budget_sankey.html" (fig g);
                  Stdout "Sankey diagram saved to budget_sankey.html";
                  Stdout "Open this file in your web browser to view the interactive diagram." ])
    ∧ node_label (fig g) = visible_node_labels g
    ∧ node_customdata (fig g) = node_hover_labels g
    ∧ link_source (fig g) = sources g ∧ link_target (fig g) = targets g
    ∧ link_value (fig g) = values g
    ∧ link_customdata (fig g) = hover_labels g
    ∧ length (node_color (fig g)) = length (node_label (fig g))
    ∧ length (node_customdata (fig g)) = length (node_label (fig g))
    ∧ length (link_target (fig g)) = length (link_source (fig g))
    ∧ length (link_value (fig g)) = length (link_source (fig g))
    ∧ length (link_customdata (fig g)) = length (link_source (fig g)).
Proof.
  run_script format_2f scenario_D.
  split; [vm_compute; reflexivity|].
  eapply (figure_written_once format_2f scenario_D).
  vm_compute; reflexivity.
Defined.

Lemma visible_summary_has_both_sections_witness :
  ∃ out g, script format_2f scenario_D = (out, inr g)
    ∧ dict_get (old_to_new_index g) 1 = Some 0
    ∧ ∃ name total amount incoming outgoing,
        format_2f total = Some amount
        ∧ length incoming = length (incoming_of g 1)
        ∧ length outgoing = length (outgoing_of g 1)
        ∧ incoming ≠ [] ∧ outgoing ≠ []
        ∧ node_hover_labels g !! 0
          = Some (String.concat ""
                    (["<b>" +:+ name +:+ ": " +:+ amount +:+ " zł</b>";
                      "<br><br>Wpływy:"]
                     ++ map (λ line, "<br>" +:+ line) incoming
                     ++ ["<br><br>Wypływy:"]
                     ++ map (λ line, "<br>" +:+ line) outgoing)).
Proof.
  run_script format_2f scenario_D.
  split; [vm_compute; reflexivity|]. split; [vm_compute; reflexivity|].
  eapply (visible_summary_has_both_sections format_2f scenario_D);
    vm_compute; reflexivity.
Defined.

Lemma nothing_hidden_identity_witness :
  ∃ out g, script format_2f (scenario_ring 3) = (out, inr g)
    ∧ hidden_nodes g = ∅
    ∧ visible_node_ids g = node_ids g
    ∧ visible_node_labels g = node_labels g
    ∧ (∀ o, o < length (node_ids g) →
            dict_get (old_to_new_index g) o = Some o)
    ∧ sources g = all_sources g ∧ targets g = all_targets g
    ∧ values g = all_values g.
Proof.
  run_script format_2f (scenario_ring 3).
  split; [vm_compute; reflexivity|]. split; [vm_compute; reflexivity|].
  eapply (nothing_hidden_identity format_2f (scenario_ring 3));
    vm_compute; reflexivity.
Defined.

Lemma no_resolved_links_all_hidden_witness :
  ∃ out g, script format_2f scenario_unresolved = (out, inr g)
    ∧ all_sources g = []
    ∧ hidden_nodes g = range_set (length (node_ids g))
    ∧ leftmost_nodes g = rightmost_nodes g
    ∧ size (hidden_nodes g) = length (node_ids g)
    ∧ visible_node_ids g = [] ∧ visible_node_labels g = []
    ∧ old_to_new_index g = []
    ∧ sources g = [] ∧ targets g = [] ∧ values g = []
    ∧ hover_labels g = [] ∧ node_hover_labels g = [].
Proof.
  run_script format_2f scenario_unresolved.
  split; [vm_compute; reflexivity|]. split; [vm_compute; reflexivity|].
  eapply (no_resolved_links_all_hidden format_2f scenario_unresolved);
    vm_compute; reflexivity.
Defined.

Lemma drawn_flow_within_total_witness :
  ∃ out g, script format_2f scenario_D = (out, inr g)
    ∧ Forall (λ x, (0 ≤ x)%Z) (all_values g)
    ∧ dict_get (old_to_new_index g) 2 = Some 1
    ∧ (total_value (filter (λ tr, tr.1.2 = 1%nat) (filtered_of g))
       ≤ total_value (incoming_of g 2%nat))%Z
    ∧ (total_value (filter (λ tr, tr.1.1 = 1%nat) (filtered_of g))
       ≤ total_value (outgoing_of g 2%nat))%Z.
Proof.
  run_script format_2f scenario_D.
  assert (Forall (λ x, (0 ≤ x)%Z) [10; 7; 7]%Z) as Hpos
    by (repeat constructor; lia).
  split; [vm_compute; reflexivity|]. split; [exact Hpos|].
  split; [vm_compute; reflexivity|].
  eapply (drawn_flow_within_total format_2f scenario_D);
    [vm_compute; reflexivity | exact Hpos | vm_compute; reflexivity].
Defined.

Lemma self_loop_stays_witness :
  ∃ out g, script format_2f scenario_self_loop = (out, inr g)
    ∧ (1, 1, 5%Z) ∈ links_of g
    ∧ (1 ∉ hidden_nodes g)
    ∧ ∃ v, dict_get (old_to_new_index g) 1 = Some v
           ∧ (v, v, 5%Z) ∈ filtered_of g.
Proof.
  run_script format_2f scenario_self_loop.
  assert ((1, 1, 5%Z) ∈ [(0, 1, 1%Z); (1, 1, 5%Z)]) as Hin
    by (right; left).
  split; [vm_compute; reflexivity|]. split; [exact Hin|].
  eapply (self_loop_stays format_2f scenario_self_loop);
    [vm_compute; reflexivity | exact Hin].
Defined.
